(** * Data-quality checks of the healthcare encounter analytics pipeline

    Shallow embedding of [src/data_quality.py]: [flag_negative_costs],
    [flag_high_encounter_counts] and [run_quality_checks], over a model of
    the pandas DataFrame operations they use.

    A DataFrame is its list of column names and its list of rows.  Every row
    carries the six measures of the analytics schema and the value of the
    [flag_reason] column; a column missing from the column list is not
    readable: accessing it raises [KeyError].  Costs are floats in the source
    and are modelled as rationals ([Q]); encounter counts are integers. *)

From Stdlib Require Import String Ascii List ZArith QArith Qround Lia Bool.
From Stdlib Require Import Sorted Permutation.
Import ListNotations.
Local Open Scope string_scope.
(* list concatenation is written [app] below: [++] is string append. *)

(** ** Errors raised by the code (Python exceptions) *)

Inductive error :=
| KeyError (column : string)
| ValueError (message : string).

Inductive result (A : Type) :=
| Ok (a : A)
| Err (e : error).
Arguments Ok {A} a.
Arguments Err {A} e.

Definition bind {A B} (m : result A) (k : A -> result B) : result B :=
  match m with
  | Ok a => k a
  | Err e => Err e
  end.

Notation "x <- m ;; k" := (bind m (fun x => k))
  (at level 61, m at next level, right associativity).

(** ** Rows and frames *)

Record encounter_row := mkRow {
  patient_id : string;
  facility_id : string;
  year_month : string;
  total_encounters : Z;
  total_cost : Q;
  distinct_diagnosis_count : Z
}.

(** A row of a frame: the measures and the [flag_reason] cell. *)
Definition row := (encounter_row * string)%type.

Record frame := mkFrame {
  columns : list string;
  rows : list row
}.

Definition key := (string * string * string)%type.

Definition row_key (r : row) : key :=
  (patient_id (fst r), facility_id (fst r), year_month (fst r)).

Definition key_eqb (k1 k2 : key) : bool :=
  match k1, k2 with
  | (a1, b1, c1), (a2, b2, c2) =>
      String.eqb a1 a2 && String.eqb b1 b2 && String.eqb c1 c2
  end.

Definition key_dec (k1 k2 : key) : {k1 = k2} + {k1 <> k2}.
Proof. repeat decide equality. Defined.

Definition key_mem (k : key) (ks : list key) : bool := existsb (key_eqb k) ks.

Definition key_cols : list string := ["patient_id"; "facility_id"; "year_month"].

Definition schema_cols : list string :=
  ["patient_id"; "facility_id"; "year_month";
   "total_encounters"; "total_cost"; "distinct_diagnosis_count"].

Definition has_col (c : string) (df : frame) : bool :=
  existsb (String.eqb c) (columns df).

(** [df[c]]: a missing column raises [KeyError]. *)
Definition require_col (c : string) (df : frame) : result unit :=
  if has_col c df then Ok tt else Err (KeyError c).

(** Selecting several columns (groupby keys, merge keys): the first missing
    one is reported. *)
Fixpoint require_cols (cs : list string) (df : frame) : result unit :=
  match cs with
  | [] => Ok tt
  | c :: cs' => _ <- require_col c df;; require_cols cs' df
  end.

(** [df.empty]: true when either axis has length zero. *)
Definition is_empty (df : frame) : bool :=
  match rows df, columns df with
  | [], _ => true
  | _, [] => true
  | _, _ => false
  end.

(** [df[mask]]: the rows whose measures satisfy the mask, same columns. *)
Definition select (p : encounter_row -> bool) (df : frame) : frame :=
  mkFrame (columns df) (filter (fun r => p (fst r)) (rows df)).

(** [df[c] = v] with a scalar [v]: an absent column is appended. *)
Definition add_col (c : string) (cs : list string) : list string :=
  if existsb (String.eqb c) cs then cs else app cs [c].

Definition set_flag_reason (df : frame) (v : string) : frame :=
  mkFrame (add_col "flag_reason" (columns df))
          (map (fun r => (fst r, v)) (rows df)).

(** ** Numbers *)

Definition Qltb (a b : Q) : bool := negb (Qle_bool b a).

(** Sorting the column before taking order statistics. *)
Fixpoint insert_Z (x : Z) (l : list Z) : list Z :=
  match l with
  | [] => [x]
  | y :: l' => if Z.leb x y then x :: l else y :: insert_Z x l'
  end.

Fixpoint sort_Z (l : list Z) : list Z :=
  match l with
  | [] => []
  | x :: l' => insert_Z x (sort_Z l')
  end.

(** [Series.quantile(p)] with pandas' default linear interpolation
    (numpy's [percentile], method "linear"): the virtual index is
    [h = (n-1) p], the result interpolates between the order statistics at
    [floor h] and [floor h + 1] (clipped to [n-1]).  pandas first rejects a
    [p] outside [[0, 1]] with [ValueError]; on an empty column the result
    is NaN, modelled as [None]. *)
(** numpy's virtual index of method "linear": [(n - 1) * p]. *)
Definition virtual_index (n : Z) (p : Q) : Q := inject_Z (n - 1) * p.

(** numpy's [_lerp] between the order statistics around [h]. *)
Definition lerp_at (v : list Z) (h : Q) : Q :=
  let n := Z.of_nat (length v) in
  let lo := Qfloor h in
  let hi := Z.min (lo + 1) (n - 1) in
  let a := inject_Z (nth (Z.to_nat lo) v 0%Z) in
  let b := inject_Z (nth (Z.to_nat hi) v 0%Z) in
  a + (h - inject_Z lo) * (b - a).

Definition quantile (xs : list Z) (p : Q) : result (option Q) :=
  if Qltb p 0 || Qltb 1 p
  then Err (ValueError "percentiles should all be in the interval [0, 1]")
  else
    match xs with
    | [] => Ok None
    | _ :: _ =>
        let v := sort_Z xs in
        Ok (Some (lerp_at v (virtual_index (Z.of_nat (length v)) p)))
    end.

(** [x > threshold]; every comparison with NaN is false. *)
Definition gt_threshold (x : Z) (t : option Q) : bool :=
  match t with
  | Some q => Qltb q (inject_Z x)
  | None => false
  end.

(** ** Formatting [f"{x:.0f}"] *)

(** Python rounds the value to an integer, ties to even. *)
Definition round_half_even (q : Q) : Z :=
  let f := Qfloor q in
  let r := q - inject_Z f in
  if Qltb r (1 # 2) then f
  else if Qltb (1 # 2) r then (f + 1)%Z
  else if Z.even f then f else (f + 1)%Z.

Definition digit_char (d : Z) : ascii := ascii_of_nat (48 + Z.to_nat d).

Fixpoint digits_aux (fuel : nat) (n : Z) (acc : string) : string :=
  match fuel with
  | O => acc
  | S fuel' =>
      let acc' := String (digit_char (n mod 10)) acc in
      if Z.ltb n 10 then acc' else digits_aux fuel' (n / 10) acc'
  end.

(** Decimal digits of a non-negative integer. *)
Definition digits (n : Z) : string :=
  digits_aux (S (Z.to_nat (Z.log2 n))) n EmptyString.

(** NaN prints as "nan"; a negative value keeps its sign even when it
    rounds to zero ([f"{-0.4:.0f}"] is "-0"). *)
Definition fmt_0f (t : option Q) : string :=
  match t with
  | None => "nan"
  | Some q =>
      let z := round_half_even q in
      if Qle_bool 0 q then digits (Z.abs z)
      else String.append "-" (digits (Z.abs z))
  end.

(** ** The two checks *)

(** [flag_negative_costs]: [df[df["total_cost"] < 0].copy()], then the
    scalar [flag_reason] column. *)
Definition flag_negative_costs (df : frame) : result frame :=
  _ <- require_col "total_cost" df;;
  Ok (set_flag_reason (select (fun e => Qltb (total_cost e) 0) df)
                      "negative_cost").

Definition encounter_column (df : frame) : list Z :=
  map (fun r => total_encounters (fst r)) (rows df).

Definition high_reason (threshold : option Q) (percentile : Q) : string :=
  "high_encounter_count (>" ++ fmt_0f threshold ++ ", p"
    ++ fmt_0f (Some (percentile * 100)) ++ ")".

(** [flag_high_encounter_counts]: the quantile of the whole column, then
    the rows strictly above it. *)
Definition flag_high_encounter_counts (df : frame) (percentile : Q)
    : result frame :=
  _ <- require_col "total_encounters" df;;
  threshold <- quantile (encounter_column df) percentile;;
  Ok (set_flag_reason
        (select (fun e => gt_threshold (total_encounters e) threshold) df)
        (high_reason threshold percentile)).

(** ** Reconciliation *)

(** [pd.concat([a, b], ignore_index=True)]: rows of [a] then rows of [b];
    the columns are the union, in first-seen order. *)
Definition concat_frames (a b : frame) : frame :=
  mkFrame (app (columns a)
               (filter (fun c => negb (existsb (String.eqb c) (columns a)))
                       (columns b)))
          (app (rows a) (rows b)).

(** [Series.unique()]: distinct values in order of first appearance. *)
Fixpoint unique (l : list string) : list string :=
  match l with
  | [] => []
  | s :: l' => s :: filter (fun t => negb (String.eqb s t)) (unique l')
  end.

(** [sorted(...)] on strings: code-point lexicographic order. *)
Fixpoint insert_str (s : string) (l : list string) : list string :=
  match l with
  | [] => [s]
  | t :: l' => if String.leb s t then s :: l else t :: insert_str s l'
  end.

Fixpoint sort_str (l : list string) : list string :=
  match l with
  | [] => []
  | s :: l' => insert_str s (sort_str l')
  end.

Definition group_reasons (rs : list row) (k : key) : list string :=
  map snd (filter (fun r => key_eqb (row_key r) k) rs).

(** The group's aggregate: ["; ".join(sorted(x.unique()))]. *)
Definition consolidate (rs : list row) (k : key) : string :=
  String.concat "; " (sort_str (unique (group_reasons rs k))).

(** [drop_duplicates(subset=key_cols)]: first row of every key. *)
Fixpoint dedup_by_key (seen : list key) (rs : list row) : list row :=
  match rs with
  | [] => []
  | r :: rs' =>
      if key_mem (row_key r) seen then dedup_by_key seen rs'
      else r :: dedup_by_key (row_key r :: seen) rs'
  end.

(** [flag_summary]: one (key, consolidated reason) pair per group.  pandas
    orders the groups by key; the table is only read through [lookup_reason]
    on distinct keys, where the order does not matter. *)
Definition flag_summary (rs : list row) : list (key * string) :=
  map (fun r => (row_key r, consolidate rs (row_key r))) (dedup_by_key [] rs).

(** The left merge with the summary; a key without a match gets NaN. *)
Definition lookup_reason (summary : list (key * string)) (k : key) : string :=
  match find (fun p => key_eqb (fst p) k) summary with
  | Some (_, s) => s
  | None => "nan"
  end.

Definition drop_col (c : string) (cs : list string) : list string :=
  filter (fun x => negb (String.eqb c x)) cs.

(** Lines 66-74: group the reasons, drop duplicate keys, merge back. *)
Definition group_flags (flagged : frame) : result frame :=
  if negb (is_empty flagged) then
    _ <- require_cols key_cols flagged;;
    let summary := flag_summary (rows flagged) in
    let kept := dedup_by_key [] (rows flagged) in
    Ok (mkFrame (app (drop_col "flag_reason" (columns flagged)) ["flag_reason"])
                (map (fun r => (fst r, lookup_reason summary (row_key r))) kept))
  else Ok flagged.

(** Lines 77-83: [df] left-merged with the flagged keys, keeping the
    [left_only] rows and the columns of [df]. *)
Definition clean_rows (df flagged : frame) : result frame :=
  if is_empty flagged then Ok df
  else
    _ <- require_cols key_cols flagged;;
    _ <- require_cols key_cols df;;
    let flagged_keys := map row_key (rows flagged) in
    Ok (mkFrame (columns df)
                (filter (fun r => negb (key_mem (row_key r) flagged_keys))
                        (rows df))).

Definition default_percentile : Q := 99 # 100.

Definition run_quality_checks (df : frame) : result (frame * frame) :=
  neg_cost <- flag_negative_costs df;;
  high_enc <- flag_high_encounter_counts df default_percentile;;
  flagged <- group_flags (concat_frames neg_cost high_enc);;
  cleaned <- clean_rows df flagged;;
  Ok (cleaned, flagged).

(** ** Object identity: the same functions over a heap of DataFrames

    Python passes DataFrames by reference.  Here a heap maps locations to
    frames; every pandas call that builds a new DataFrame ([df[mask]],
    [.copy()], [pd.concat], [merge]) allocates, and [df[c] = v] writes the
    frame in place.  Intermediate frames built inside [group_flags] and
    [clean_rows] (the summary, the deduplicated frame, the merge with its
    indicator column) are fresh objects never stored elsewhere and are not
    allocated separately. *)

Definition loc := nat.
Definition heap := list frame.

Definition empty_frame : frame := mkFrame [] [].

Definition M (A : Type) := heap -> result (A * heap).

Definition mret {A} (a : A) : M A := fun h => Ok (a, h).

Definition mbind {A B} (m : M A) (k : A -> M B) : M B :=
  fun h => match m h with
           | Ok (a, h') => k a h'
           | Err e => Err e
           end.

Notation "'let!' x := m 'in' k" := (mbind m (fun x => k))
  (at level 200, x name, m at level 100, k at level 200).

Definition lift {A} (r : result A) : M A :=
  fun h => match r with
           | Ok a => Ok (a, h)
           | Err e => Err e
           end.

Definition deref (h : heap) (l : loc) : frame := nth l h empty_frame.

Definition get (l : loc) : M frame := fun h => Ok (deref h l, h).

Definition alloc (f : frame) : M loc := fun h => Ok (length h, app h [f]).

Fixpoint set_nth (h : heap) (l : loc) (f : frame) : heap :=
  match h, l with
  | [], _ => []
  | _ :: h', O => f :: h'
  | g :: h', S l' => g :: set_nth h' l' f
  end.

Definition store (l : loc) (f : frame) : M unit :=
  fun h => Ok (tt, set_nth h l f).

(** [flagged["flag_reason"] = v]: writes the frame at [l] in place. *)
Definition setitem_flag_reason (l : loc) (v : string) : M unit :=
  let! f := get l in store l (set_flag_reason f v).

Definition h_flag_negative_costs (l : loc) : M loc :=
  let! df := get l in
  let! _u := lift (require_col "total_cost" df) in
  let! sel := alloc (select (fun e => Qltb (total_cost e) 0) df) in
  let! sf := get sel in
  let! flagged := alloc sf in
  let! _w := setitem_flag_reason flagged "negative_cost" in
  mret flagged.

Definition h_flag_high_encounter_counts (l : loc) (percentile : Q) : M loc :=
  let! df := get l in
  let! _u := lift (require_col "total_encounters" df) in
  let! threshold := lift (quantile (encounter_column df) percentile) in
  let! sel := alloc
     (select (fun e => gt_threshold (total_encounters e) threshold) df) in
  let! sf := get sel in
  let! flagged := alloc sf in
  let! _w := setitem_flag_reason flagged (high_reason threshold percentile) in
  mret flagged.

Definition h_run_quality_checks (l : loc) : M (loc * loc) :=
  let! neg_cost := h_flag_negative_costs l in
  let! high_enc := h_flag_high_encounter_counts l default_percentile in
  let! a := get neg_cost in
  let! b := get high_enc in
  let! flagged0 := alloc (concat_frames a b) in
  let! f0 := get flagged0 in
  let! flagged :=
     (if is_empty f0 then mret flagged0
      else let! g := lift (group_flags f0) in alloc g) in
  let! f := get flagged in
  let! df := get l in
  let! cleaned :=
     (if is_empty f then alloc df
      else let! c := lift (clean_rows df f) in alloc c) in
  mret (cleaned, flagged).

(** ** The caller: the FLAG BREAKDOWN section of [main.generate_report]

    Lines 62-67 of [src/main.py]: for every distinct reason of the flagged
    table, [reason.split(";")[0].strip()] is passed to
    [Series.str.contains], which compiles it as a regular expression
    ([regex=True] is the default) and counts the reasons it is found in.

    [str.strip()] removes the characters for which [str.isspace()] holds;
    on ASCII these are 9-13, 28-31 and the space. *)

Definition is_space (c : ascii) : bool :=
  let n := nat_of_ascii c in
  (Nat.leb 9 n && Nat.leb n 13) || (Nat.leb 28 n && Nat.leb n 31) || Nat.eqb n 32.

Fixpoint lstrip (s : string) : string :=
  match s with
  | EmptyString => EmptyString
  | String c r => if is_space c then lstrip r else s
  end.

Fixpoint rstrip (s : string) : string :=
  match s with
  | EmptyString => EmptyString
  | String c r =>
      let r' := rstrip r in
      if is_space c && String.eqb r' "" then "" else String c r'
  end.

Definition py_strip (s : string) : string := rstrip (lstrip s).

(** [s.split(sep)[0]]: everything before the first [sep]. *)
Fixpoint split_first (sep : ascii) (s : string) : string :=
  match s with
  | EmptyString => EmptyString
  | String c r => if Ascii.eqb c sep then EmptyString else String c (split_first sep r)
  end.

(** Regular expressions, for the part of Python's [re] syntax made of
    ordinary characters, groups [( )] and [.].  Any other metacharacter
    ([\ [ ] { } * + ? | ^ $]) is outside the model: compiling a pattern that
    contains one gives [Unsupported].  Without quantifiers or alternation a
    group only concatenates, so a compiled pattern is a list of items. *)
Inductive re_item :=
| Lit (c : ascii)
| AnyChar.

Inductive re_compiled :=
| Compiled (items : list re_item)
| ReError
| Unsupported.

Definition re_special (c : ascii) : bool :=
  existsb (Ascii.eqb c) (list_ascii_of_string "\[]{}*+?|^$").

Definition cons_item (i : re_item) (r : re_compiled) : re_compiled :=
  match r with
  | Compiled l => Compiled (i :: l)
  | other => other
  end.

(** [re.compile], scanning left to right with the number of open groups:
    a [)] with no open group, or a group still open at the end, is
    [re.error]. *)
Fixpoint re_items (depth : nat) (s : string) : re_compiled :=
  match s with
  | EmptyString => if Nat.eqb depth 0 then Compiled [] else ReError
  | String c r =>
      if Ascii.eqb c "(" then re_items (S depth) r
      else if Ascii.eqb c ")" then
        match depth with
        | O => ReError
        | S d => re_items d r
        end
      else if Ascii.eqb c "." then cons_item AnyChar (re_items depth r)
      else if re_special c then Unsupported
      else cons_item (Lit c) (re_items depth r)
  end.

Definition re_compile (pat : string) : re_compiled := re_items 0 pat.

(** [.] matches any character but a newline. *)
Definition item_ok (i : re_item) (c : ascii) : bool :=
  match i with
  | Lit x => Ascii.eqb x c
  | AnyChar => negb (Ascii.eqb c (ascii_of_nat 10))
  end.

Fixpoint match_here (items : list re_item) (s : string) : bool :=
  match items with
  | [] => true
  | i :: items' =>
      match s with
      | EmptyString => false
      | String c s' => item_ok i c && match_here items' s'
      end
  end.

(** [re.search]: a match starting at some position, the end included. *)
Fixpoint re_search (items : list re_item) (s : string) : bool :=
  match_here items s ||
  match s with
  | EmptyString => false
  | String _ s' => re_search items s'
  end.

(** What a call evaluates to: a value, a Python exception, [re.error], or
    a pattern outside the modelled part of [re]. *)
Inductive outcome (A : Type) :=
| Done (a : A)
| Raised (e : error)
| PatternError
| Unmodelled.
Arguments Done {A} a.
Arguments Raised {A} e.
Arguments PatternError {A}.
Arguments Unmodelled {A}.

(** The loop over [flagged_df["flag_reason"].unique()]: each reason with
    [len(flagged_df[flagged_df["flag_reason"].str.contains(pattern)])]. *)
Fixpoint breakdown_counts (us reasons : list string)
    : outcome (list (string * nat)) :=
  match us with
  | [] => Done []
  | u :: us' =>
      match re_compile (py_strip (split_first ";" u)) with
      | Compiled its =>
          match breakdown_counts us' reasons with
          | Done ps => Done ((u, length (filter (re_search its) reasons)) :: ps)
          | Raised e => Raised e
          | PatternError => PatternError
          | Unmodelled => Unmodelled
          end
      | ReError => PatternError
      | Unsupported => Unmodelled
      end
  end.

(** [f"{count}"] for a non-negative int. *)
Definition nat_str (n : nat) : string := digits (Z.of_nat n).

Definition breakdown_line (p : string * nat) : string :=
  "    - " ++ fst p ++ ": " ++ nat_str (snd p) ++ " record(s)".

(** The lines the section appends to the report. *)
Definition flag_breakdown (flagged : frame) : outcome (list string) :=
  if is_empty flagged then Done []
  else if has_col "flag_reason" flagged then
    let reasons := map snd (rows flagged) in
    match breakdown_counts (unique reasons) reasons with
    | Done ps => Done ("" :: "  FLAG BREAKDOWN:" :: map breakdown_line ps)
    | Raised e => Raised e
    | PatternError => PatternError
    | Unmodelled => Unmodelled
    end
  else Raised (KeyError "flag_reason").

(** ** Concrete tables (from tests/test_data_quality.py and the spec) *)

Definition mk_row (p f y : string) (e : Z) (c : Q) (d : Z) : row :=
  (mkRow p f y e c d, "").

(** The [sample_analytics_df] fixture: 12 rows, one negative cost
    (P002, F002, 2025-01 at -30.0) and one outlier (P010 with 50). *)
Definition sample_df : frame :=
  mkFrame schema_cols
    [mk_row "P001" "F001" "2025-01" 3 150 2; mk_row "P001" "F001" "2025-02" 2 200 1;
     mk_row "P002" "F002" "2025-01" 5 (-30) 3; mk_row "P002" "F002" "2025-02" 1 80 1;
     mk_row "P003" "F001" "2025-01" 4 300 2; mk_row "P004" "F003" "2025-01" 2 120 1;
     mk_row "P005" "F001" "2025-01" 3 250 2; mk_row "P006" "F002" "2025-01" 1 90 1;
     mk_row "P007" "F003" "2025-01" 2 110 1; mk_row "P008" "F001" "2025-01" 2 70 1;
     mk_row "P009" "F002" "2025-01" 1 60 1; mk_row "P010" "F003" "2025-01" 50 5000 5].

(** A table with one row flagged by both checks. *)
Definition both_df : frame :=
  mkFrame schema_cols
    [mk_row "P001" "F001" "2025-01" 1 10 1; mk_row "P002" "F001" "2025-01" 1 20 1;
     mk_row "P003" "F001" "2025-01" 1 30 1; mk_row "P004" "F002" "2025-01" 40 (-5) 2].

(** The empty table with the full schema. *)
Definition empty_df : frame := mkFrame schema_cols [].



(** ** Vocabulary of the properties on strings *)

Fixpoint str_all (p : ascii -> bool) (s : string) : bool :=
  match s with
  | EmptyString => true
  | String c r => p c && str_all p r
  end.

Definition starts_with (b : ascii) (s : string) : bool :=
  match s with
  | String y _ => Ascii.eqb y b
  | EmptyString => false
  end.

Fixpoint ends_with (a : ascii) (s : string) : bool :=
  match s with
  | EmptyString => false
  | String x EmptyString => Ascii.eqb x a
  | String _ r => ends_with a r
  end.

(** [has_pair a b s]: the character [a] is directly followed by [b] in [s]. *)
Fixpoint has_pair (a b : ascii) (s : string) : bool :=
  match s with
  | EmptyString => false
  | String x r => (Ascii.eqb x a && starts_with b r) || has_pair a b r
  end.

(** The characters [fmt_0f] prints. *)
Definition fmt_char (c : ascii) : bool :=
  existsb (Ascii.eqb c) (list_ascii_of_string "0123456789-na").

(** [a] is never directly followed by [b], and is not the last character. *)
Definition no_pair (a b : ascii) (s : string) : Prop :=
  has_pair a b s = false /\ ends_with a s = false.

(** The characters [re_items] turns into a literal item. *)
Definition re_plain (c : ascii) : bool :=
  negb (Ascii.eqb c "(" || Ascii.eqb c ")" || Ascii.eqb c "." || re_special c).

(** The reasons a run of the checks writes into the flagged table, with
    [t] the threshold of the outlier check. *)
Definition reason_shape (t : option Q) (s : string) : Prop :=
  s = "negative_cost" \/ s = high_reason t default_percentile \/
  s = high_reason t default_percentile ++ "; " ++ "negative_cost".

(** * Properties *)

From Stdlib Require Import Lqa.

(** ** Boolean views *)

Lemma Qltb_spec a b : Qltb a b = true <-> a < b.
Proof.
  unfold Qltb. rewrite negb_true_iff. split; intro H.
  - apply Qnot_le_lt. intro H'. apply Qle_bool_iff in H'. congruence.
  - destruct (Qle_bool b a) eqn:E; [|reflexivity].
    apply Qle_bool_iff in E. exfalso. exact (Qlt_not_le _ _ H E).
Qed.

Lemma Qltb_false a b : Qltb a b = false <-> b <= a.
Proof.
  unfold Qltb. rewrite negb_false_iff. apply Qle_bool_iff.
Qed.

Lemma in_cols_has_col c df : In c (columns df) -> has_col c df = true.
Proof.
  intro H. unfold has_col. apply existsb_exists. exists c.
  split; [exact H | apply String.eqb_refl].
Qed.

Lemma has_col_in c df : has_col c df = true -> In c (columns df).
Proof.
  unfold has_col. intro H. apply existsb_exists in H.
  destruct H as [x [Hx Hc]]. apply String.eqb_eq in Hc. subst. exact Hx.
Qed.

Lemma require_col_ok c df : In c (columns df) -> require_col c df = Ok tt.
Proof.
  intro H. unfold require_col. rewrite (in_cols_has_col _ _ H). reflexivity.
Qed.

Lemma require_cols_ok cs df :
  (forall c, In c cs -> In c (columns df)) -> require_cols cs df = Ok tt.
Proof.
  induction cs as [|c cs IH]; intro H; simpl; [reflexivity|].
  rewrite require_col_ok by (apply H; left; reflexivity). simpl.
  apply IH. intros x Hx. apply H. right. exact Hx.
Qed.


Lemma add_col_in c c' cs : In c' cs -> In c' (add_col c cs).
Proof.
  intro H. unfold add_col. destruct (existsb _ _); [exact H|].
  apply in_or_app. left. exact H.
Qed.

Lemma add_col_self c cs : In c (add_col c cs).
Proof.
  unfold add_col. destruct (existsb (String.eqb c) cs) eqn:E.
  - apply existsb_exists in E. destruct E as [x [Hx Hc]].
    apply String.eqb_eq in Hc. subst. exact Hx.
  - apply in_or_app. right. left. reflexivity.
Qed.


Lemma in_select_map (p : encounter_row -> bool) (v : string) (rs : list row) e s :
  In (e, s) (map (fun r => (fst r, v)) (filter (fun r => p (fst r)) rs)) <->
  (exists s0, In (e, s0) rs) /\ p e = true /\ s = v.
Proof.
  rewrite in_map_iff. split.
  - intros [[e' s'] [Heq Hin]]. simpl in Heq. injection Heq as <- <-.
    apply filter_In in Hin. destruct Hin as [Hin Hp].
    split; [exists s'; exact Hin|]. split; [exact Hp | reflexivity].
  - intros [[s0 Hin] [Hp ->]]. exists (e, s0). split; [reflexivity|].
    apply filter_In. split; assumption.
Qed.

(** ** Sorting the column *)

Lemma insert_Z_perm x l : Permutation (x :: l) (insert_Z x l).
Proof.
  induction l as [|y l IH]; simpl; [reflexivity|].
  destruct (x <=? y)%Z; [reflexivity|].
  eapply perm_trans; [apply perm_swap|]. apply perm_skip. exact IH.
Qed.

Lemma sort_Z_perm l : Permutation l (sort_Z l).
Proof.
  induction l as [|x l IH]; simpl; [reflexivity|].
  eapply perm_trans; [apply perm_skip; exact IH | apply insert_Z_perm].
Qed.

Lemma insert_Z_sorted x l : Sorted Z.le l -> Sorted Z.le (insert_Z x l).
Proof.
  induction 1 as [|y l Hs IH Hd]; simpl.
  - constructor; constructor.
  - destruct (Z.leb_spec x y).
    + constructor; [constructor; assumption | constructor; lia].
    + constructor; [exact IH|].
      destruct l as [|z l]; simpl; [constructor; lia|].
      destruct (Z.leb_spec x z); constructor; [lia|].
      inversion Hd; assumption.
Qed.

Lemma sort_Z_sorted l : Sorted Z.le (sort_Z l).
Proof.
  induction l as [|x l IH]; simpl; [constructor|]. apply insert_Z_sorted. exact IH.
Qed.

Lemma sort_Z_length l : length (sort_Z l) = length l.
Proof. symmetry. apply Permutation_length, sort_Z_perm. Qed.

Lemma sorted_nth_le l i j :
  StronglySorted Z.le l -> (i <= j)%nat -> (j < length l)%nat ->
  (nth i l 0 <= nth j l 0)%Z.
Proof.
  intro Hs. revert i j.
  induction Hs as [|a l Hs IH Hf]; intros i j Hij Hj; simpl in *; [lia|].
  destruct i as [|i], j as [|j]; [lia | | lia | apply IH; lia].
  rewrite Forall_forall in Hf. apply Hf. apply nth_In. lia.
Qed.

(** ** The linear-interpolation quantile *)

Section Interpolation.

Variable v : list Z.
Hypothesis v_sorted : Sorted Z.le v.
Hypothesis v_nonempty : (1 <= length v)%nat.

Let n : Z := Z.of_nat (length v).
Let g (i : Z) : Q := inject_Z (nth (Z.to_nat i) v 0%Z).

Lemma g_mono i j : (0 <= i)%Z -> (i <= j)%Z -> (j <= n - 1)%Z -> g i <= g j.
Proof.
  intros H0 Hij Hj. unfold g. rewrite <- Zle_Qle.
  apply sorted_nth_le; [apply Sorted_StronglySorted; [exact Z.le_trans | exact v_sorted] | lia |].
  unfold n in Hj. lia.
Qed.

Lemma floor_range h :
  0 <= h -> h <= inject_Z (n - 1) -> (0 <= Qfloor h <= n - 1)%Z.
Proof.
  intros H0 H1. split.
  - change 0%Z with (Qfloor 0). apply Qfloor_resp_le. exact H0.
  - rewrite <- (Qfloor_Z (n - 1)). apply Qfloor_resp_le. exact H1.
Qed.

Lemma floor_frac h : inject_Z (Qfloor h) <= h /\ h < inject_Z (Qfloor h) + 1.
Proof.
  split; [apply Qfloor_le|].
  pose proof (Qlt_floor h) as H. rewrite inject_Z_plus in H. exact H.
Qed.

Lemma lerp_bounds h :
  0 <= h -> h <= inject_Z (n - 1) ->
  g (Qfloor h) <= lerp_at v h /\
  lerp_at v h <= g (Z.min (Qfloor h + 1) (n - 1)).
Proof.
  intros H0 H1.
  destruct (floor_range h H0 H1) as [Hl0 Hl1].
  destruct (floor_frac h) as [Hf0 Hf1].
  assert (Hab : g (Qfloor h) <= g (Z.min (Qfloor h + 1) (n - 1)))
    by (apply g_mono; lia).
  unfold lerp_at. fold n. fold (g (Qfloor h)). fold (g (Z.min (Qfloor h + 1) (n - 1))).
  split; nra.
Qed.

Lemma lerp_mono h1 h2 :
  0 <= h2 -> h2 <= h1 -> h1 <= inject_Z (n - 1) ->
  lerp_at v h2 <= lerp_at v h1.
Proof.
  intros H0 H21 H1.
  assert (Hl : (Qfloor h2 <= Qfloor h1)%Z) by (apply Qfloor_resp_le; exact H21).
  destruct (Z.eq_dec (Qfloor h2) (Qfloor h1)) as [He|Hne].
  - destruct (floor_range h1 ltac:(lra) H1) as [Hl0 Hl1].
    assert (Hab : g (Qfloor h1) <= g (Z.min (Qfloor h1 + 1) (n - 1)))
      by (apply g_mono; lia).
    unfold lerp_at. fold n. rewrite He.
    fold (g (Qfloor h1)). fold (g (Z.min (Qfloor h1 + 1) (n - 1))).
    nra.
  - destruct (lerp_bounds h2 H0 ltac:(lra)) as [_ Hb2].
    destruct (lerp_bounds h1 ltac:(lra) H1) as [Ha1 _].
    destruct (floor_range h2 H0 ltac:(lra)) as [Hl0 _].
    destruct (floor_range h1 ltac:(lra) H1) as [_ Hl1].
    assert (Hg : g (Z.min (Qfloor h2 + 1) (n - 1)) <= g (Qfloor h1))
      by (apply g_mono; lia).
    lra.
Qed.

Lemma virtual_index_range p :
  0 <= p -> p <= 1 -> 0 <= virtual_index n p /\ virtual_index n p <= inject_Z (n - 1).
Proof.
  intros H0 H1. unfold virtual_index.
  assert (Hn : 0 <= inject_Z (n - 1)).
  { change 0 with (inject_Z 0). rewrite <- Zle_Qle. unfold n. lia. }
  split; nra.
Qed.

Lemma lerp_top : lerp_at v (inject_Z (n - 1)) == g (n - 1).
Proof.
  unfold lerp_at. fold n. rewrite Qfloor_Z.
  replace (Z.min (n - 1 + 1) (n - 1)) with (n - 1)%Z by lia.
  fold (g (n - 1)). ring.
Qed.

Lemma lerp_bottom : lerp_at v 0 == g 0.
Proof.
  unfold lerp_at. fold n. change (Qfloor 0) with 0%Z.
  fold (g 0). ring.
Qed.

Lemma lerp_const c h :
  (forall x, In x v -> x = c) -> 0 <= h -> h <= inject_Z (n - 1) ->
  lerp_at v h == inject_Z c.
Proof.
  intros Hc H0 H1.
  destruct (floor_range h H0 H1) as [Hl0 Hl1].
  assert (Hg : forall i, (0 <= i <= n - 1)%Z -> g i = inject_Z c).
  { intros i Hi. unfold g.
    assert (Hi' : (Z.to_nat i < length v)%nat) by (unfold n in Hi; lia).
    rewrite (Hc _ (nth_In _ _ Hi')). reflexivity. }
  unfold lerp_at. fold n.
  fold (g (Qfloor h)). fold (g (Z.min (Qfloor h + 1) (n - 1))).
  rewrite (Hg (Qfloor h)) by lia. rewrite Hg by lia. ring.
Qed.

Lemma g_max x : In x v -> (x <= nth (Z.to_nat (n - 1)) v 0)%Z.
Proof.
  intro Hx. destruct (In_nth _ _ 0%Z Hx) as [k [Hk <-]].
  apply sorted_nth_le; [apply Sorted_StronglySorted; [exact Z.le_trans | exact v_sorted] | |];
    unfold n; lia.
Qed.

Lemma g_min x : In x v -> (nth 0 v 0 <= x)%Z.
Proof.
  intro Hx. destruct (In_nth _ _ 0%Z Hx) as [k [Hk <-]].
  apply sorted_nth_le; [apply Sorted_StronglySorted; [exact Z.le_trans | exact v_sorted] | |];
    lia.
Qed.

End Interpolation.

Lemma quantile_ok xs p :
  0 <= p -> p <= 1 ->
  quantile xs p =
  Ok (match xs with
      | [] => None
      | _ :: _ => Some (lerp_at (sort_Z xs)
                          (virtual_index (Z.of_nat (length (sort_Z xs))) p))
      end).
Proof.
  intros H0 H1. unfold quantile.
  rewrite (proj2 (Qltb_false p 0) H0), (proj2 (Qltb_false 1 p) H1). simpl.
  destruct xs; reflexivity.
Qed.

Lemma quantile_invalid xs p :
  p < 0 \/ 1 < p ->
  quantile xs p =
  Err (ValueError "percentiles should all be in the interval [0, 1]").
Proof.
  intro H. unfold quantile.
  destruct H as [H|H]; [rewrite (proj2 (Qltb_spec p 0) H) | rewrite (proj2 (Qltb_spec 1 p) H), orb_true_r];
    reflexivity.
Qed.

Lemma encounter_column_length df : length (encounter_column df) = length (rows df).
Proof. unfold encounter_column. apply length_map. Qed.

Lemma encounter_column_nil df : encounter_column df = [] <-> rows df = [].
Proof.
  unfold encounter_column. destruct (rows df); simpl; split; congruence.
Qed.

Lemma flag_high_encounter_counts_ok df p :
  In "total_encounters" (columns df) -> 0 <= p -> p <= 1 ->
  exists t, quantile (encounter_column df) p = Ok t /\
  flag_high_encounter_counts df p =
  Ok (set_flag_reason (select (fun e => gt_threshold (total_encounters e) t) df)
                      (high_reason t p)).
Proof.
  intros Hc H0 H1. rewrite (quantile_ok _ _ H0 H1).
  eexists. split; [reflexivity|].
  unfold flag_high_encounter_counts. rewrite require_col_ok by exact Hc. simpl.
  rewrite (quantile_ok _ _ H0 H1). reflexivity.
Qed.

Lemma flag_negative_costs_ok df :
  In "total_cost" (columns df) ->
  flag_negative_costs df =
  Ok (set_flag_reason (select (fun e => Qltb (total_cost e) 0) df) "negative_cost").
Proof.
  intro Hc. unfold flag_negative_costs. rewrite require_col_ok by exact Hc.
  reflexivity.
Qed.

Lemma threshold_range df p :
  rows df <> [] -> 0 <= p -> p <= 1 ->
  let v := sort_Z (encounter_column df) in
  0 <= virtual_index (Z.of_nat (length v)) p /\
  virtual_index (Z.of_nat (length v)) p <= inject_Z (Z.of_nat (length v) - 1).
Proof.
  intros Hne H0 H1 v. apply virtual_index_range; [|exact H0|exact H1].
  unfold v. rewrite sort_Z_length, encounter_column_length.
  destruct (rows df); [congruence | simpl; lia].
Qed.

(** ** C2: the negative-cost check *)

(** C2: on a table with a [total_cost] column, [flag_negative_costs]
    returns exactly the rows with [total_cost < 0], in input order, each
    with [flag_reason = "negative_cost"]; a row with cost 0 is never among
    them. *)
Theorem flag_negative_costs_spec df :
  In "total_cost" (columns df) ->
  exists f,
    flag_negative_costs df = Ok f /\
    rows f = map (fun r => (fst r, "negative_cost"))
                 (filter (fun r => Qltb (total_cost (fst r)) 0) (rows df)) /\
    (forall e s, In (e, s) (rows f) <->
       (exists s0, In (e, s0) (rows df)) /\ total_cost e < 0 /\ s = "negative_cost") /\
    (forall e s, In (e, s) (rows f) -> ~ total_cost e == 0).
Proof.
  intro Hc. rewrite (flag_negative_costs_ok _ Hc).
  eexists. split; [reflexivity|]. simpl. split; [reflexivity|].
  assert (Hiff : forall e s,
    In (e, s) (map (fun r => (fst r, "negative_cost"))
                 (filter (fun r => Qltb (total_cost (fst r)) 0) (rows df))) <->
    (exists s0, In (e, s0) (rows df)) /\ total_cost e < 0 /\ s = "negative_cost").
  { intros e s. rewrite (in_select_map (fun e => Qltb (total_cost e) 0)).
    rewrite Qltb_spec. tauto. }
  split; [exact Hiff|].
  intros e s Hin Hz. apply Hiff in Hin. destruct Hin as [_ [Hlt _]].
  rewrite Hz in Hlt. exact (Qlt_irrefl 0 Hlt).
Qed.

Lemma flag_negative_costs_spec_witness :
  In "total_cost" (columns sample_df) /\
  exists f,
    flag_negative_costs sample_df = Ok f /\
    rows f = map (fun r => (fst r, "negative_cost"))
                 (filter (fun r => Qltb (total_cost (fst r)) 0) (rows sample_df)) /\
    (forall e s, In (e, s) (rows f) <->
       (exists s0, In (e, s0) (rows sample_df)) /\ total_cost e < 0 /\ s = "negative_cost") /\
    (forall e s, In (e, s) (rows f) -> ~ total_cost e == 0).
Proof.
  split; [apply has_col_in; reflexivity|].
  apply flag_negative_costs_spec. apply has_col_in. reflexivity.
Defined.

(** ** C3: the encounter-count outlier check *)

Lemma threshold_value df p :
  rows df <> [] -> 0 <= p -> p <= 1 ->
  quantile (encounter_column df) p =
  Ok (Some (lerp_at (sort_Z (encounter_column df))
                    (virtual_index (Z.of_nat (length (rows df))) p))).
Proof.
  intros Hne H0 H1. rewrite (quantile_ok _ _ H0 H1).
  rewrite sort_Z_length, encounter_column_length.
  destruct (encounter_column df) eqn:E; [apply encounter_column_nil in E; congruence|].
  reflexivity.
Qed.

(** C3: on a non-empty table with a [total_encounters] column and a
    percentile [p] in [[0, 1]], the threshold is the linear-interpolation
    quantile [t] of the whole column, and [flag_high_encounter_counts]
    returns exactly the rows with [total_encounters > t], in input order,
    each with the reason
    ["high_encounter_count (>{t:.0f}, p{p*100:.0f})"]; when all values of
    the column are equal, it returns no row. *)
Theorem flag_high_encounter_counts_spec df p :
  In "total_encounters" (columns df) -> rows df <> [] -> 0 <= p -> p <= 1 ->
  exists t f,
    quantile (encounter_column df) p = Ok (Some t) /\
    t = lerp_at (sort_Z (encounter_column df))
                (virtual_index (Z.of_nat (length (rows df))) p) /\
    flag_high_encounter_counts df p = Ok f /\
    rows f = map (fun r => (fst r, high_reason (Some t) p))
                 (filter (fun r => Qltb t (inject_Z (total_encounters (fst r))))
                         (rows df)) /\
    (forall e s, In (e, s) (rows f) <->
       (exists s0, In (e, s0) (rows df)) /\ t < inject_Z (total_encounters e) /\
       s = "high_encounter_count (>" ++ fmt_0f (Some t) ++ ", p"
             ++ fmt_0f (Some (p * 100)) ++ ")") /\
    ((forall x y, In x (encounter_column df) -> In y (encounter_column df) -> x = y) ->
     rows f = []).
Proof.
  intros Hc Hne H0 H1.
  destruct (flag_high_encounter_counts_ok df p Hc H0 H1) as [t0 [Hq Hf]].
  rewrite (threshold_value df p Hne H0 H1) in Hq. injection Hq as <-.
  set (t := lerp_at (sort_Z (encounter_column df))
                    (virtual_index (Z.of_nat (length (rows df))) p)) in *.
  exists t. eexists. split; [apply threshold_value; assumption|].
  split; [reflexivity|]. split; [exact Hf|]. simpl. split; [reflexivity|].
  split.
  - intros e s. rewrite (in_select_map (fun e => Qltb t (inject_Z (total_encounters e)))).
    rewrite Qltb_spec. unfold high_reason. tauto.
  - intro Hu.
    assert (Hr0 : exists r0, In r0 (rows df))
      by (destruct (rows df) as [|r0 rs]; [congruence | exists r0; left; reflexivity]).
    destruct Hr0 as [r0 Hr0].
    set (c := total_encounters (fst r0)).
    assert (Hall : forall r, In r (rows df) -> total_encounters (fst r) = c).
    { intros r Hr. apply Hu; unfold encounter_column;
        apply (in_map (fun r => total_encounters (fst r))); assumption. }
    assert (Ht : t == inject_Z c).
    { destruct (threshold_range df p Hne H0 H1) as [Hv0 Hv1].
      rewrite sort_Z_length, encounter_column_length in Hv0, Hv1.
      unfold t. apply lerp_const.
      - rewrite sort_Z_length, encounter_column_length.
        destruct (rows df); [congruence | simpl; lia].
      - intros x Hx. apply Permutation_in with (l' := encounter_column df) in Hx;
          [|symmetry; apply sort_Z_perm].
        unfold encounter_column in Hx. apply in_map_iff in Hx.
        destruct Hx as [r [<- Hr]]. apply Hall. exact Hr.
      - exact Hv0.
      - rewrite sort_Z_length, encounter_column_length. exact Hv1. }
    destruct (filter (fun r => Qltb t (inject_Z (total_encounters (fst r)))) (rows df))
      as [|r rs'] eqn:Ef; [reflexivity|].
    exfalso. assert (Hr : In r (filter (fun r => Qltb t (inject_Z (total_encounters (fst r)))) (rows df)))
      by (rewrite Ef; left; reflexivity).
    apply filter_In in Hr. destruct Hr as [Hr Hlt].
    apply Qltb_spec in Hlt. rewrite (Hall r Hr), Ht in Hlt.
    exact (Qlt_irrefl _ Hlt).
Qed.

Lemma flag_high_encounter_counts_spec_witness :
  (In "total_encounters" (columns sample_df) /\ rows sample_df <> [] /\
   0 <= 99 # 100 /\ 99 # 100 <= 1) /\
  exists t f,
    quantile (encounter_column sample_df) (99 # 100) = Ok (Some t) /\
    t = lerp_at (sort_Z (encounter_column sample_df))
                (virtual_index (Z.of_nat (length (rows sample_df))) (99 # 100)) /\
    flag_high_encounter_counts sample_df (99 # 100) = Ok f /\
    rows f = map (fun r => (fst r, high_reason (Some t) (99 # 100)))
                 (filter (fun r => Qltb t (inject_Z (total_encounters (fst r))))
                         (rows sample_df)) /\
    (forall e s, In (e, s) (rows f) <->
       (exists s0, In (e, s0) (rows sample_df)) /\ t < inject_Z (total_encounters e) /\
       s = "high_encounter_count (>" ++ fmt_0f (Some t) ++ ", p"
             ++ fmt_0f (Some ((99 # 100) * 100)) ++ ")") /\
    ((forall x y, In x (encounter_column sample_df) ->
                  In y (encounter_column sample_df) -> x = y) ->
     rows f = []).
Proof.
  assert (Hc : In "total_encounters" (columns sample_df))
    by (apply has_col_in; reflexivity).
  assert (Hne : rows sample_df <> []) by (simpl; discriminate).
  assert (H0 : 0 <= 99 # 100) by (apply Qle_bool_iff; reflexivity).
  assert (H1 : 99 # 100 <= 1) by (apply Qle_bool_iff; reflexivity).
  split; [repeat split; assumption|].
  exact (flag_high_encounter_counts_spec sample_df (99 # 100) Hc Hne H0 H1).
Defined.

(** ** C10: the endpoints 1.0 and 0.0 of the percentile *)

Lemma lerp_at_compat v h h' : h == h' -> lerp_at v h == lerp_at v h'.
Proof.
  intro H. unfold lerp_at. rewrite (Qfloor_comp _ _ H). rewrite H. reflexivity.
Qed.

Lemma select_above_none df t :
  (forall r, In r (rows df) -> inject_Z (total_encounters (fst r)) <= t) ->
  filter (fun r => Qltb t (inject_Z (total_encounters (fst r)))) (rows df) = [].
Proof.
  intro H. induction (rows df) as [|r rs IH]; simpl; [reflexivity|].
  rewrite (proj2 (Qltb_false _ _) (H r (or_introl eq_refl))).
  apply IH. intros r' Hr'. apply H. right. exact Hr'.
Qed.

Lemma column_sorted_facts df :
  rows df <> [] ->
  Sorted Z.le (sort_Z (encounter_column df)) /\
  (1 <= length (sort_Z (encounter_column df)))%nat /\
  length (sort_Z (encounter_column df)) = length (rows df) /\
  (forall x, In x (encounter_column df) <-> In x (sort_Z (encounter_column df))).
Proof.
  intro Hne. split; [apply sort_Z_sorted|].
  rewrite sort_Z_length, encounter_column_length.
  split; [destruct (rows df); [congruence | simpl; lia]|]. split; [reflexivity|].
  intro x. split; apply Permutation_in; [apply sort_Z_perm | symmetry; apply sort_Z_perm].
Qed.

(** C10: on a non-empty table with a [total_encounters] column, the
    percentiles 1.0 and 0.0 (outside the documented open range) raise no
    error; at 1.0 the threshold is the column maximum and no row is
    returned, at 0.0 the threshold is the column minimum. *)
Theorem flag_high_encounter_counts_endpoints df :
  In "total_encounters" (columns df) -> rows df <> [] ->
  (exists t f m,
     quantile (encounter_column df) 1 = Ok (Some t) /\
     flag_high_encounter_counts df 1 = Ok f /\ rows f = [] /\
     In m (encounter_column df) /\ t == inject_Z m /\
     (forall x, In x (encounter_column df) -> (x <= m)%Z)) /\
  (exists t f m,
     quantile (encounter_column df) 0 = Ok (Some t) /\
     flag_high_encounter_counts df 0 = Ok f /\
     In m (encounter_column df) /\ t == inject_Z m /\
     (forall x, In x (encounter_column df) -> (m <= x)%Z)).
Proof.
  intros Hc Hne.
  destruct (column_sorted_facts df Hne) as [Hs [H1 [Hlen Hin]]].
  set (v := sort_Z (encounter_column df)) in *.
  split.
  - set (m := nth (Z.to_nat (Z.of_nat (length v) - 1)) v 0%Z).
    assert (Ht : lerp_at v (virtual_index (Z.of_nat (length (rows df))) 1) == inject_Z m).
    { rewrite (lerp_at_compat v _ (inject_Z (Z.of_nat (length v) - 1)))
        by (unfold virtual_index; rewrite Hlen; ring).
      exact (lerp_top v H1). }
    assert (Hm : forall x, In x (encounter_column df) -> (x <= m)%Z)
      by (intros x Hx; apply g_max; [exact Hs | exact H1 | apply Hin; exact Hx]).
    destruct (flag_high_encounter_counts_ok df 1 Hc ltac:(lra) ltac:(lra)) as [t0 [Hq Hf]].
    rewrite (threshold_value df 1 Hne ltac:(lra) ltac:(lra)) in Hq.
    injection Hq as <-. fold v in Hf.
    eexists. eexists. exists m.
    split; [rewrite (threshold_value df 1 Hne ltac:(lra) ltac:(lra)); reflexivity|].
    split; [exact Hf|]. split.
    + simpl. rewrite select_above_none; [reflexivity|].
      intros r Hr. rewrite Ht. rewrite <- Zle_Qle. apply Hm.
      apply (in_map (fun r => total_encounters (fst r))). exact Hr.
    + split; [apply Hin, nth_In; lia|]. split; [exact Ht | exact Hm].
  - set (m := nth 0 v 0%Z).
    assert (Ht : lerp_at v (virtual_index (Z.of_nat (length (rows df))) 0) == inject_Z m).
    { rewrite (lerp_at_compat v _ 0) by (unfold virtual_index; ring).
      exact (lerp_bottom v). }
    destruct (flag_high_encounter_counts_ok df 0 Hc ltac:(lra) ltac:(lra)) as [t0 [Hq Hf]].
    rewrite (threshold_value df 0 Hne ltac:(lra) ltac:(lra)) in Hq.
    injection Hq as <-. fold v in Hf.
    eexists. eexists. exists m.
    split; [rewrite (threshold_value df 0 Hne ltac:(lra) ltac:(lra)); reflexivity|].
    split; [exact Hf|].
    split; [apply Hin, nth_In; lia|]. split; [exact Ht|].
    intros x Hx. apply g_min; [exact Hs | exact H1 | apply Hin; exact Hx].
Qed.

Lemma flag_high_encounter_counts_endpoints_witness :
  (In "total_encounters" (columns sample_df) /\ rows sample_df <> []) /\
  (exists t f m,
     quantile (encounter_column sample_df) 1 = Ok (Some t) /\
     flag_high_encounter_counts sample_df 1 = Ok f /\ rows f = [] /\
     In m (encounter_column sample_df) /\ t == inject_Z m /\
     (forall x, In x (encounter_column sample_df) -> (x <= m)%Z)) /\
  (exists t f m,
     quantile (encounter_column sample_df) 0 = Ok (Some t) /\
     flag_high_encounter_counts sample_df 0 = Ok f /\
     In m (encounter_column sample_df) /\ t == inject_Z m /\
     (forall x, In x (encounter_column sample_df) -> (m <= x)%Z)).
Proof.
  assert (Hc : In "total_encounters" (columns sample_df))
    by (apply has_col_in; reflexivity).
  assert (Hne : rows sample_df <> []) by (simpl; discriminate).
  split; [split; assumption|].
  exact (flag_high_encounter_counts_endpoints sample_df Hc Hne).
Defined.

(** ** C8: lowering the percentile never flags fewer rows *)

Lemma count_above_mono (t1 t2 : Q) (rs : list row) :
  t2 <= t1 ->
  (length (filter (fun r => Qltb t1 (inject_Z (total_encounters (fst r)))) rs) <=
   length (filter (fun r => Qltb t2 (inject_Z (total_encounters (fst r)))) rs))%nat.
Proof.
  intro Ht. induction rs as [|r rs IH]; simpl; [lia|].
  destruct (Qltb t1 _) eqn:E1.
  - apply Qltb_spec in E1.
    rewrite (proj2 (Qltb_spec t2 (inject_Z (total_encounters (fst r)))) ltac:(lra)).
    simpl. lia.
  - destruct (Qltb t2 _); simpl; lia.
Qed.

(** C8: for percentiles [0 < p2 <= p1 < 1], [flag_high_encounter_counts]
    at [p2] returns at least as many rows as at [p1]. *)
Theorem flag_high_encounter_counts_monotone df p1 p2 :
  In "total_encounters" (columns df) -> 0 < p2 -> p2 <= p1 -> p1 < 1 ->
  exists f1 f2,
    flag_high_encounter_counts df p1 = Ok f1 /\
    flag_high_encounter_counts df p2 = Ok f2 /\
    (length (rows f1) <= length (rows f2))%nat.
Proof.
  intros Hc H2 H21 H1.
  destruct (flag_high_encounter_counts_ok df p1 Hc ltac:(lra) ltac:(lra)) as [t1 [Hq1 Hf1]].
  destruct (flag_high_encounter_counts_ok df p2 Hc ltac:(lra) ltac:(lra)) as [t2 [Hq2 Hf2]].
  exists (set_flag_reason (select (fun e => gt_threshold (total_encounters e) t1) df)
                          (high_reason t1 p1)),
         (set_flag_reason (select (fun e => gt_threshold (total_encounters e) t2) df)
                          (high_reason t2 p2)).
  split; [exact Hf1|]. split; [exact Hf2|]. simpl. rewrite !length_map.
  destruct (rows df) as [|r rs] eqn:Er; [simpl; lia|].
  assert (Hne : rows df <> []) by (rewrite Er; discriminate).
  rewrite (threshold_value df p1 Hne ltac:(lra) ltac:(lra)) in Hq1.
  rewrite (threshold_value df p2 Hne ltac:(lra) ltac:(lra)) in Hq2.
  injection Hq1 as <-. injection Hq2 as <-. rewrite <- Er.
  apply count_above_mono.
  destruct (column_sorted_facts df Hne) as [Hs [Hl [Hlen _]]].
  destruct (threshold_range df p1 Hne ltac:(lra) ltac:(lra)) as [_ Hv1].
  destruct (threshold_range df p2 Hne ltac:(lra) ltac:(lra)) as [Hv2 _].
  rewrite Hlen in Hv1, Hv2.
  apply lerp_mono; [exact Hs | exact Hl | exact Hv2 | | rewrite Hlen; exact Hv1].
  unfold virtual_index.
  assert (0 <= inject_Z (Z.of_nat (length (rows df)) - 1)).
  { change 0 with (inject_Z 0). rewrite <- Zle_Qle. rewrite Hlen in Hl. lia. }
  nra.
Qed.

Lemma flag_high_encounter_counts_monotone_witness :
  (In "total_encounters" (columns sample_df) /\ 0 < 1 # 2 /\
   1 # 2 <= 99 # 100 /\ 99 # 100 < 1) /\
  exists f1 f2,
    flag_high_encounter_counts sample_df (99 # 100) = Ok f1 /\
    flag_high_encounter_counts sample_df (1 # 2) = Ok f2 /\
    (length (rows f1) <= length (rows f2))%nat.
Proof.
  assert (Hc : In "total_encounters" (columns sample_df))
    by (apply has_col_in; reflexivity).
  assert (H2 : 0 < 1 # 2) by (apply Qltb_spec; reflexivity).
  assert (H21 : 1 # 2 <= 99 # 100) by (apply Qle_bool_iff; reflexivity).
  assert (H1 : 99 # 100 < 1) by (apply Qltb_spec; reflexivity).
  split; [repeat split; assumption|].
  exact (flag_high_encounter_counts_monotone sample_df (99 # 100) (1 # 2) Hc H2 H21 H1).
Defined.

(** ** C7: the percentile range *)

(** C7, as stated, fails: the percentile 1.0 lies outside the open interval
    (0, 1), yet [flag_high_encounter_counts] returns without error. *)
Lemma flag_high_percentile_one_no_error :
  exists f, flag_high_encounter_counts sample_df 1 = Ok f.
Proof. eexists. vm_compute. reflexivity. Qed.

(** C7 (amended): [flag_high_encounter_counts] has no range check of its
    own.  Every percentile in the closed interval [[0, 1]] is accepted;
    one below 0 or above 1 is rejected by pandas' quantile with
    [ValueError]. *)
Theorem flag_high_encounter_counts_percentile_range df p :
  In "total_encounters" (columns df) ->
  ((0 <= p /\ p <= 1) -> exists f, flag_high_encounter_counts df p = Ok f) /\
  ((p < 0 \/ 1 < p) ->
   flag_high_encounter_counts df p =
   Err (ValueError "percentiles should all be in the interval [0, 1]")).
Proof.
  intro Hc. split.
  - intros [H0 H1]. destruct (flag_high_encounter_counts_ok df p Hc H0 H1) as [t [_ Hf]].
    eexists. exact Hf.
  - intro H. unfold flag_high_encounter_counts. rewrite require_col_ok by exact Hc.
    simpl. rewrite (quantile_invalid _ _ H). reflexivity.
Qed.

Lemma flag_high_encounter_counts_percentile_range_witness :
  In "total_encounters" (columns sample_df) /\
  ((0 <= 3 # 2 /\ 3 # 2 <= 1) -> exists f, flag_high_encounter_counts sample_df (3 # 2) = Ok f) /\
  ((3 # 2 < 0 \/ 1 < 3 # 2) ->
   flag_high_encounter_counts sample_df (3 # 2) =
   Err (ValueError "percentiles should all be in the interval [0, 1]")).
Proof.
  assert (Hc : In "total_encounters" (columns sample_df))
    by (apply has_col_in; reflexivity).
  split; [exact Hc|].
  exact (flag_high_encounter_counts_percentile_range sample_df (3 # 2) Hc).
Defined.

(** ** C5: the empty table *)

Lemma set_flag_reason_select_nil p v df :
  rows df = [] -> rows (set_flag_reason (select p df) v) = [].
Proof. intro H. simpl. rewrite H. reflexivity. Qed.

(** C5: on the empty table with the full schema, [run_quality_checks]
    returns two tables with zero rows, and each check (the outlier check at
    any percentile in [[0, 1]]) returns zero rows, with no error. *)
Theorem run_quality_checks_empty df :
  rows df = [] -> (forall c, In c schema_cols -> In c (columns df)) ->
  (exists cleaned flagged,
     run_quality_checks df = Ok (cleaned, flagged) /\
     rows cleaned = [] /\ rows flagged = []) /\
  (exists f, flag_negative_costs df = Ok f /\ rows f = []) /\
  (forall p, 0 <= p -> p <= 1 ->
   exists f, flag_high_encounter_counts df p = Ok f /\ rows f = []).
Proof.
  intros Hr Hs.
  assert (Hcost : In "total_cost" (columns df)) by (apply Hs; simpl; tauto).
  assert (Henc : In "total_encounters" (columns df)) by (apply Hs; simpl; tauto).
  split; [|split].
  - unfold run_quality_checks. rewrite (flag_negative_costs_ok df Hcost). simpl.
    destruct (flag_high_encounter_counts_ok df default_percentile Henc
                ltac:(unfold default_percentile; lra) ltac:(unfold default_percentile; lra))
      as [t [_ Hf]].
    rewrite Hf. destruct df as [cols rs]. simpl in Hr. subst rs. simpl.
    do 2 eexists. split; [reflexivity|]. split; reflexivity.
  - eexists. split; [exact (flag_negative_costs_ok df Hcost)|].
    apply set_flag_reason_select_nil. exact Hr.
  - intros p H0 H1. destruct (flag_high_encounter_counts_ok df p Henc H0 H1) as [t [_ Hf]].
    eexists. split; [exact Hf|]. apply set_flag_reason_select_nil. exact Hr.
Qed.

Lemma run_quality_checks_empty_witness :
  (rows empty_df = [] /\ (forall c, In c schema_cols -> In c (columns empty_df))) /\
  (exists cleaned flagged,
     run_quality_checks empty_df = Ok (cleaned, flagged) /\
     rows cleaned = [] /\ rows flagged = []) /\
  (exists f, flag_negative_costs empty_df = Ok f /\ rows f = []) /\
  (forall p, 0 <= p -> p <= 1 ->
   exists f, flag_high_encounter_counts empty_df p = Ok f /\ rows f = []).
Proof.
  assert (Hr : rows empty_df = []) by reflexivity.
  assert (Hs : forall c, In c schema_cols -> In c (columns empty_df)) by (simpl; tauto).
  split; [split; assumption|].
  exact (run_quality_checks_empty empty_df Hr Hs).
Defined.

(** ** The reconciler *)

Lemma key_eqb_spec k1 k2 : key_eqb k1 k2 = true <-> k1 = k2.
Proof.
  destruct k1 as [[a1 b1] c1], k2 as [[a2 b2] c2]. simpl.
  rewrite !andb_true_iff, !String.eqb_eq. split.
  - intros [[-> ->] ->]. reflexivity.
  - intro H. injection H as -> -> ->. tauto.
Qed.

Lemma key_mem_spec k ks : key_mem k ks = true <-> In k ks.
Proof.
  unfold key_mem. rewrite existsb_exists. split.
  - intros [x [Hx Hk]]. apply key_eqb_spec in Hk. subst. exact Hx.
  - intro H. exists k. split; [exact H | apply key_eqb_spec; reflexivity].
Qed.

Lemma key_mem_false k ks : key_mem k ks = false <-> ~ In k ks.
Proof.
  rewrite <- key_mem_spec. destruct (key_mem k ks); split; congruence.
Qed.

Lemma dedup_by_key_sub seen rs r :
  In r (dedup_by_key seen rs) -> In r rs /\ ~ In (row_key r) seen.
Proof.
  revert seen. induction rs as [|x rs IH]; intros seen H; simpl in H; [destruct H|].
  destruct (key_mem (row_key x) seen) eqn:E.
  - destruct (IH seen H) as [H1 H2]. split; [right; exact H1 | exact H2].
  - destruct H as [<-|H].
    + split; [left; reflexivity|]. apply key_mem_false. exact E.
    + destruct (IH _ H) as [H1 H2]. split; [right; exact H1|].
      intro Hin. apply H2. right. exact Hin.
Qed.

Lemma dedup_by_key_keys seen rs k :
  In k (map row_key rs) -> ~ In k seen -> In k (map row_key (dedup_by_key seen rs)).
Proof.
  revert seen. induction rs as [|x rs IH]; intros seen Hk Hs; simpl in *; [destruct Hk|].
  destruct (key_mem (row_key x) seen) eqn:E.
  - apply key_mem_spec in E. destruct Hk as [<-|Hk]; [contradiction|].
    apply IH; assumption.
  - simpl. destruct (key_dec (row_key x) k) as [<-|Hne]; [left; reflexivity|].
    right. apply IH; [destruct Hk; [contradiction | assumption]|].
    intros [H|H]; [exact (Hne H) | exact (Hs H)].
Qed.

Lemma dedup_by_key_nodup seen rs : NoDup (map row_key (dedup_by_key seen rs)).
Proof.
  revert seen. induction rs as [|x rs IH]; intro seen; simpl; [constructor|].
  destruct (key_mem (row_key x) seen); [apply IH|].
  simpl. constructor; [|apply IH].
  intro Hin. apply in_map_iff in Hin. destruct Hin as [r [Hr Hin]].
  apply dedup_by_key_sub in Hin. destruct Hin as [_ Hn]. apply Hn. left. symmetry. exact Hr.
Qed.

Lemma dedup_by_key_keys_sub seen rs k :
  In k (map row_key (dedup_by_key seen rs)) -> In k (map row_key rs).
Proof.
  intro H. apply in_map_iff in H. destruct H as [r [<- Hr]].
  apply dedup_by_key_sub in Hr. apply in_map. apply Hr.
Qed.

Lemma lookup_reason_summary rs r :
  In r (dedup_by_key [] rs) ->
  lookup_reason (flag_summary rs) (row_key r) = consolidate rs (row_key r).
Proof.
  intro Hr. unfold lookup_reason.
  destruct (find (fun p => key_eqb (fst p) (row_key r)) (flag_summary rs)) as [[k s]|] eqn:E.
  - apply find_some in E. destruct E as [Hin Hk]. simpl in Hk.
    apply key_eqb_spec in Hk. subst k.
    unfold flag_summary in Hin. apply in_map_iff in Hin.
    destruct Hin as [r' [Heq _]].
    transitivity (snd (row_key r', consolidate rs (row_key r'))); [rewrite Heq; reflexivity|].
    change (consolidate rs (row_key r') = consolidate rs (row_key r)).
    f_equal. exact (f_equal fst Heq).
  - exfalso.
    assert (Hin : In (row_key r, consolidate rs (row_key r)) (flag_summary rs)).
    { unfold flag_summary. apply (in_map (fun r => (row_key r, consolidate rs (row_key r)))).
      exact Hr. }
    pose proof (find_none _ _ E _ Hin) as Hf.
    change (key_eqb (row_key r) (row_key r) = false) in Hf.
    rewrite (proj2 (key_eqb_spec _ _) eq_refl) in Hf. discriminate.
Qed.

Lemma filter_keep_all (rs : list row) :
  filter (fun r => negb (key_mem (row_key r) [])) rs = rs.
Proof. induction rs as [|r rs IH]; simpl; [reflexivity | f_equal; exact IH]. Qed.

Lemma flag_negative_costs_inv df neg :
  flag_negative_costs df = Ok neg ->
  neg = set_flag_reason (select (fun e => Qltb (total_cost e) 0) df) "negative_cost".
Proof.
  unfold flag_negative_costs, require_col. destruct (has_col _ _); simpl; congruence.
Qed.

Lemma flag_high_encounter_counts_inv df p high :
  flag_high_encounter_counts df p = Ok high ->
  exists t, quantile (encounter_column df) p = Ok t /\
  high = set_flag_reason (select (fun e => gt_threshold (total_encounters e) t) df)
                         (high_reason t p).
Proof.
  unfold flag_high_encounter_counts, require_col. destruct (has_col _ _); simpl; [|congruence].
  destruct (quantile _ _) as [t|]; simpl; [|congruence].
  intro H. injection H as <-. exists t. split; reflexivity.
Qed.

Lemma set_flag_reason_rows_from df p v r :
  In r (rows (set_flag_reason (select p df) v)) -> exists s, In (fst r, s) (rows df).
Proof.
  destruct r as [e s]. simpl. intro H. apply in_select_map in H.
  destruct H as [[s0 H] _]. exists s0. exact H.
Qed.

(** [run_quality_checks] unfolded: the flagged rows are the first row of
    every key among the check outputs with the consolidated reason, the
    cleaned rows are the input rows whose key is not flagged. *)
Lemma is_empty_app_cons cs c r rs : is_empty (mkFrame (app cs [c]) (r :: rs)) = false.
Proof. unfold is_empty. simpl. destruct cs; reflexivity. Qed.

Lemma run_quality_checks_inv df cleaned flagged :
  run_quality_checks df = Ok (cleaned, flagged) ->
  exists neg high,
    flag_negative_costs df = Ok neg /\
    flag_high_encounter_counts df default_percentile = Ok high /\
    rows flagged =
      map (fun r => (fst r, consolidate (app (rows neg) (rows high)) (row_key r)))
          (dedup_by_key [] (app (rows neg) (rows high))) /\
    rows cleaned =
      filter (fun r => negb (key_mem (row_key r)
                (map row_key (dedup_by_key [] (app (rows neg) (rows high))))))
             (rows df).
Proof.
  intro H. unfold run_quality_checks in H.
  destruct (flag_negative_costs df) as [neg|e] eqn:En; [|discriminate H]. simpl in H.
  destruct (flag_high_encounter_counts df default_percentile) as [high|e] eqn:Eh;
    [|discriminate H]. simpl in H.
  destruct (group_flags (concat_frames neg high)) as [fl|e] eqn:Eg; [|discriminate H].
  simpl in H.
  destruct (clean_rows df fl) as [cl|e] eqn:Ec; [|discriminate H]. simpl in H.
  injection H as <- <-.
  exists neg, high. split; [reflexivity|]. split; [reflexivity|].
  apply flag_negative_costs_inv in En.
  assert (Hcol : In "flag_reason" (columns neg)) by (rewrite En; apply add_col_self).
  assert (Hrows : rows (concat_frames neg high) = app (rows neg) (rows high)) by reflexivity.
  assert (Hcc : columns (concat_frames neg high) <> []).
  { simpl. destruct (columns neg); [destruct Hcol | discriminate]. }
  unfold group_flags in Eg.
  destruct (app (rows neg) (rows high)) as [|x F'] eqn:EF.
  - assert (He : is_empty (concat_frames neg high) = true)
      by (unfold is_empty; rewrite Hrows; reflexivity).
    rewrite He in Eg. simpl in Eg. injection Eg as <-.
    unfold clean_rows in Ec. rewrite He in Ec. injection Ec as <-.
    split; [exact Hrows|]. symmetry. apply filter_keep_all.
  - assert (He : is_empty (concat_frames neg high) = false).
    { unfold is_empty. rewrite Hrows.
      destruct (columns (concat_frames neg high)); [congruence | reflexivity]. }
    rewrite He in Eg. cbn [negb] in Eg.
    destruct (require_cols key_cols (concat_frames neg high)) as [[]|e];
      cbn [bind] in Eg; [|discriminate Eg].
    injection Eg as <-. cbn [rows]. rewrite EF.
    assert (Hmap : map (fun r => (fst r, lookup_reason (flag_summary (x :: F')) (row_key r)))
                       (dedup_by_key [] (x :: F')) =
                   map (fun r => (fst r, consolidate (x :: F') (row_key r)))
                       (dedup_by_key [] (x :: F'))).
    { apply map_ext_in. intros r Hr. rewrite lookup_reason_summary by exact Hr.
      reflexivity. }
    split; [exact Hmap|].
    unfold clean_rows in Ec. rewrite EF in Ec.
    assert (Hd : exists y ys, dedup_by_key [] (x :: F') = y :: ys)
      by (simpl; eexists; eexists; reflexivity).
    destruct Hd as [y [ys Hd]]. rewrite Hd in Ec. cbn [map] in Ec.
    rewrite is_empty_app_cons in Ec.
    destruct (require_cols key_cols _) as [[]|e]; cbn [bind] in Ec; [|discriminate Ec].
    destruct (require_cols key_cols df) as [[]|e]; cbn [bind] in Ec; [|discriminate Ec].
    injection Ec as <-. cbn [rows]. rewrite Hd, map_map. reflexivity.
Qed.

Lemma bind_Ok {A B} (a : A) (k : A -> result B) : bind (Ok a) k = k a.
Proof. reflexivity. Qed.

Lemma key_col_not_flag_reason c : In c key_cols -> c <> "flag_reason".
Proof. simpl. intros [<-|[<-|[<-|[]]]]; discriminate. Qed.

Lemma run_quality_checks_ok df :
  (forall c, In c schema_cols -> In c (columns df)) ->
  exists cleaned flagged, run_quality_checks df = Ok (cleaned, flagged).
Proof.
  intro Hs.
  assert (Hcost : In "total_cost" (columns df)) by (apply Hs; simpl; tauto).
  assert (Henc : In "total_encounters" (columns df)) by (apply Hs; simpl; tauto).
  assert (Hk : forall c, In c key_cols -> In c (columns df))
    by (intros c Hc; apply Hs; simpl in *; tauto).
  unfold run_quality_checks. rewrite (flag_negative_costs_ok df Hcost), bind_Ok.
  destruct (flag_high_encounter_counts_ok df default_percentile Henc
              ltac:(unfold default_percentile; lra) ltac:(unfold default_percentile; lra))
    as [t [_ Hf]].
  rewrite Hf, bind_Ok. cbv beta.
  set (neg := set_flag_reason (select (fun e => Qltb (total_cost e) 0) df) "negative_cost").
  set (high := set_flag_reason (select (fun e => gt_threshold (total_encounters e) t) df)
                               (high_reason t default_percentile)).
  assert (Hkc : forall c, In c key_cols -> In c (columns (concat_frames neg high))).
  { intros c Hc. simpl. apply in_or_app. left. apply add_col_in. apply Hk. exact Hc. }
  unfold group_flags, clean_rows. cbv beta iota delta [bind].
  destruct (is_empty (concat_frames neg high)) eqn:E; cbn [negb].
  { rewrite E. do 2 eexists. reflexivity. }
  rewrite (require_cols_ok key_cols _ Hkc).
  destruct (is_empty {| columns := _; rows := _ |}); [do 2 eexists; reflexivity|].
  rewrite require_cols_ok.
  + rewrite (require_cols_ok key_cols df Hk). do 2 eexists. reflexivity.
    + intros c Hc. simpl. apply in_or_app. left. unfold drop_col. apply filter_In.
      split; [apply Hkc; exact Hc|].
      apply negb_true_iff. apply String.eqb_neq. intro Heq.
      apply (key_col_not_flag_reason c Hc). symmetry. exact Heq.
Qed.

Lemma NoDup_map_filter {A B} (f : A -> B) (p : A -> bool) l :
  NoDup (map f l) -> NoDup (map f (filter p l)).
Proof.
  induction l as [|a l IH]; simpl; intro H; [constructor|].
  inversion H as [|x y Hn Hd]; subst.
  destruct (p a); simpl; [|apply IH; exact Hd].
  constructor; [|apply IH; exact Hd].
  intro Hin. apply Hn. apply in_map_iff in Hin. destruct Hin as [b [<- Hb]].
  apply filter_In in Hb. apply in_map. apply Hb.
Qed.

(** The rows of both check outputs are input rows (with a reason). *)
Lemma check_rows_from_input df neg high :
  flag_negative_costs df = Ok neg ->
  flag_high_encounter_counts df default_percentile = Ok high ->
  forall r, In r (app (rows neg) (rows high)) -> In (row_key r) (map row_key (rows df)).
Proof.
  intros En Eh r Hr.
  apply flag_negative_costs_inv in En. apply flag_high_encounter_counts_inv in Eh.
  destruct Eh as [t [_ Eh]].
  assert (Hs : exists s, In (fst r, s) (rows df)).
  { apply in_app_or in Hr. destruct Hr as [Hr|Hr];
      [rewrite En in Hr | rewrite Eh in Hr]; eapply set_flag_reason_rows_from; exact Hr. }
  destruct Hs as [s Hs].
  change (row_key r) with (row_key (fst r, s)). apply in_map. exact Hs.
Qed.

(** ** C1: the partition *)

(** C1: on a table with the full schema and unique keys,
    [run_quality_checks] returns [(cleaned, flagged)] whose key sets are
    disjoint, cover the input keys, have no duplicates, and whose sizes add
    up to the number of distinct input keys. *)
Theorem run_quality_checks_partition df :
  (forall c, In c schema_cols -> In c (columns df)) ->
  NoDup (map row_key (rows df)) ->
  exists cleaned flagged,
    run_quality_checks df = Ok (cleaned, flagged) /\
    (forall k, In k (map row_key (rows cleaned)) \/ In k (map row_key (rows flagged)) <->
               In k (map row_key (rows df))) /\
    (forall k, In k (map row_key (rows cleaned)) -> ~ In k (map row_key (rows flagged))) /\
    NoDup (map row_key (rows cleaned)) /\
    NoDup (map row_key (rows flagged)) /\
    (length (rows cleaned) + length (rows flagged) =
     length (nodup key_dec (map row_key (rows df))))%nat.
Proof.
  intros Hs Hu.
  destruct (run_quality_checks_ok df Hs) as [c [f Hrun]].
  exists c, f. split; [exact Hrun|].
  destruct (run_quality_checks_inv _ _ _ Hrun) as [neg [high [En [Eh [Hf Hc]]]]].
  pose proof (check_rows_from_input df neg high En Eh) as Hsrc.
  set (D := dedup_by_key [] (app (rows neg) (rows high))) in *.
  assert (Hkf : map row_key (rows f) = map row_key D) by (rewrite Hf, map_map; reflexivity).
  assert (Hkc : forall k, In k (map row_key (rows c)) <->
                In k (map row_key (rows df)) /\ ~ In k (map row_key D)).
  { intro k. rewrite Hc. split.
    - intro H. apply in_map_iff in H. destruct H as [r [<- Hr]].
      apply filter_In in Hr. destruct Hr as [Hr Hm].
      split; [apply in_map; exact Hr|].
      apply negb_true_iff, key_mem_false in Hm. exact Hm.
    - intros [H Hn]. apply in_map_iff in H. destruct H as [r [<- Hr]].
      apply in_map. apply filter_In. split; [exact Hr|].
      apply negb_true_iff, key_mem_false. exact Hn. }
  assert (Hunion : forall k, In k (map row_key (rows c)) \/ In k (map row_key (rows f)) <->
                   In k (map row_key (rows df))).
  { intro k. rewrite Hkc, Hkf. split.
    - intros [[H _]|H]; [exact H|].
      apply dedup_by_key_keys_sub in H. apply in_map_iff in H.
      destruct H as [r [<- Hr]]. apply Hsrc. exact Hr.
    - intro H. destruct (in_dec key_dec k (map row_key D)); [right | left]; tauto. }
  assert (Hdisj : forall k, In k (map row_key (rows c)) -> ~ In k (map row_key (rows f))).
  { intros k H. rewrite Hkf. apply Hkc in H. tauto. }
  assert (Hndc : NoDup (map row_key (rows c))) by (rewrite Hc; apply NoDup_map_filter; exact Hu).
  assert (Hndf : NoDup (map row_key (rows f))) by (rewrite Hkf; apply dedup_by_key_nodup).
  split; [exact Hunion|]. split; [exact Hdisj|]. split; [exact Hndc|]. split; [exact Hndf|].
  rewrite (nodup_fixed_point key_dec Hu).
  rewrite <- (length_map row_key (rows c)), <- (length_map row_key (rows f)), <- length_app.
  apply Permutation_length. apply NoDup_Permutation.
  - apply NoDup_app; assumption.
  - exact Hu.
  - intro k. rewrite in_app_iff. apply Hunion.
Qed.

Lemma run_quality_checks_partition_witness :
  ((forall c, In c schema_cols -> In c (columns sample_df)) /\
   NoDup (map row_key (rows sample_df))) /\
  exists cleaned flagged,
    run_quality_checks sample_df = Ok (cleaned, flagged) /\
    (forall k, In k (map row_key (rows cleaned)) \/ In k (map row_key (rows flagged)) <->
               In k (map row_key (rows sample_df))) /\
    (forall k, In k (map row_key (rows cleaned)) -> ~ In k (map row_key (rows flagged))) /\
    NoDup (map row_key (rows cleaned)) /\
    NoDup (map row_key (rows flagged)) /\
    (length (rows cleaned) + length (rows flagged) =
     length (nodup key_dec (map row_key (rows sample_df))))%nat.
Proof.
  assert (Hs : forall c, In c schema_cols -> In c (columns sample_df)) by (simpl; tauto).
  assert (Hu : NoDup (map row_key (rows sample_df))).
  { assert (E : nodup key_dec (map row_key (rows sample_df)) = map row_key (rows sample_df))
      by (vm_compute; reflexivity).
    rewrite <- E. apply NoDup_nodup. }
  split; [split; assumption|].
  exact (run_quality_checks_partition sample_df Hs Hu).
Defined.

(** ** Consolidated reasons *)

Lemma unique_in s l : In s (unique l) <-> In s l.
Proof.
  induction l as [|x l IH]; simpl; [tauto|].
  rewrite filter_In, negb_true_iff, String.eqb_neq, IH.
  split.
  - intros [H|[H _]]; [left; exact H | right; exact H].
  - intros [H|H]; [left; exact H|].
    destruct (string_dec x s) as [E|E]; [left; exact E | right; split; assumption].
Qed.

Lemma unique_nodup l : NoDup (unique l).
Proof.
  induction l as [|x l IH]; simpl; constructor.
  - rewrite filter_In, negb_true_iff, String.eqb_neq. tauto.
  - apply NoDup_filter. exact IH.
Qed.

Definition str_le (a b : string) : Prop := String.leb a b = true.
Definition str_lt (a b : string) : Prop := String.ltb a b = true.

Lemma insert_str_perm s l : Permutation (s :: l) (insert_str s l).
Proof.
  induction l as [|t l IH]; simpl; [reflexivity|].
  destruct (String.leb s t); [reflexivity|].
  eapply perm_trans; [apply perm_swap|]. apply perm_skip. exact IH.
Qed.

Lemma sort_str_perm l : Permutation l (sort_str l).
Proof.
  induction l as [|s l IH]; simpl; [reflexivity|].
  eapply perm_trans; [apply perm_skip; exact IH | apply insert_str_perm].
Qed.

Lemma leb_false_flip a b : String.leb a b = false -> String.leb b a = true.
Proof.
  intro H. destruct (String.leb_total a b) as [H'|H']; [congruence | exact H'].
Qed.

Lemma insert_str_sorted s l : Sorted str_le l -> Sorted str_le (insert_str s l).
Proof.
  induction 1 as [|t l Hs IH Hd]; simpl.
  - constructor; constructor.
  - destruct (String.leb s t) eqn:E.
    + constructor; [constructor; assumption | constructor; exact E].
    + constructor; [exact IH|].
      destruct l as [|u l]; simpl; [constructor; apply leb_false_flip; exact E|].
      destruct (String.leb s u); constructor; [apply leb_false_flip; exact E|].
      inversion Hd; assumption.
Qed.

Lemma sort_str_sorted l : Sorted str_le (sort_str l).
Proof.
  induction l as [|s l IH]; simpl; [constructor|]. apply insert_str_sorted. exact IH.
Qed.

Lemma str_le_neq_lt a b : str_le a b -> a <> b -> str_lt a b.
Proof.
  unfold str_le, str_lt, String.leb, String.ltb. intros H Hne.
  destruct (String.compare a b) eqn:E; [|reflexivity|discriminate].
  apply String.compare_eq_iff in E. contradiction.
Qed.

Lemma sorted_strict l : Sorted str_le l -> NoDup l -> Sorted str_lt l.
Proof.
  induction 1 as [|a l Hs IH Hd]; intro Hn; constructor.
  - apply IH. inversion Hn; assumption.
  - inversion Hn as [|x y Hnin Hn']; subst.
    destruct l as [|b l]; constructor. inversion Hd; subst.
    apply str_le_neq_lt; [assumption|]. intro E. apply Hnin. left. symmetry. exact E.
Qed.

Lemma consolidate_spec rs k :
  exists L, consolidate rs k = String.concat "; " L /\
    Sorted str_lt L /\ NoDup L /\
    (forall s, In s L <-> exists r, In r rs /\ row_key r = k /\ snd r = s).
Proof.
  exists (sort_str (unique (group_reasons rs k))). split; [reflexivity|].
  assert (Hnd : NoDup (sort_str (unique (group_reasons rs k))))
    by (eapply Permutation_NoDup; [apply sort_str_perm | apply unique_nodup]).
  split; [apply sorted_strict; [apply sort_str_sorted | exact Hnd]|].
  split; [exact Hnd|].
  intro s. split.
  - intro H. apply Permutation_in with (l' := unique (group_reasons rs k)) in H;
      [|symmetry; apply sort_str_perm].
    apply (proj1 (unique_in _ _)) in H. unfold group_reasons in H. apply in_map_iff in H.
    destruct H as [r [<- Hr]]. apply filter_In in Hr. destruct Hr as [Hr Hk].
    apply key_eqb_spec in Hk. exists r. tauto.
  - intros [r [Hr [Hk <-]]].
    apply Permutation_in with (l := unique (group_reasons rs k)); [apply sort_str_perm|].
    apply (proj2 (unique_in _ _)). unfold group_reasons. apply in_map. apply filter_In.
    split; [exact Hr | apply key_eqb_spec; exact Hk].
Qed.

Lemma count_key_one (l : list row) k :
  NoDup (map row_key l) -> In k (map row_key l) ->
  length (filter (fun r => key_eqb (row_key r) k) l) = 1%nat.
Proof.
  induction l as [|a l IH]; cbn [map filter In]; intros Hn Hk; [destruct Hk|].
  inversion Hn as [|x y Hnin Hn']; subst.
  destruct (key_eqb (row_key a) k) eqn:E.
  - apply key_eqb_spec in E. subst k. cbn [length]. f_equal.
    destruct (filter (fun r => key_eqb (row_key r) (row_key a)) l) as [|b rs] eqn:Ef;
      [reflexivity|].
    exfalso. assert (Hb : In b (filter (fun r => key_eqb (row_key r) (row_key a)) l))
      by (rewrite Ef; left; reflexivity).
    apply filter_In in Hb. destruct Hb as [Hb Hkb]. apply key_eqb_spec in Hkb.
    apply Hnin. rewrite <- Hkb. apply in_map. exact Hb.
  - apply IH; [exact Hn'|]. destruct Hk as [Hk|Hk]; [|exact Hk].
    subst k. rewrite (proj2 (key_eqb_spec _ _) eq_refl) in E. discriminate.
Qed.

Lemma count_key_map (l : list row) (g : row -> string) k :
  length (filter (fun r => key_eqb (row_key r) k) (map (fun r => (fst r, g r)) l)) =
  length (filter (fun r => key_eqb (row_key r) k) l).
Proof.
  induction l as [|a l IH]; cbn [map filter]; [reflexivity|].
  change (row_key (fst a, g a)) with (row_key a).
  destruct (key_eqb (row_key a) k); cbn [length]; rewrite IH; reflexivity.
Qed.

Lemma str_lt_asym a b : str_lt a b -> ~ str_lt b a.
Proof.
  unfold str_lt, String.ltb. rewrite (String.compare_antisym b a).
  destruct (String.compare a b); simpl; discriminate.
Qed.

Lemma set_flag_reason_snd df v r : In r (rows (set_flag_reason df v)) -> snd r = v.
Proof.
  simpl. intro H. apply in_map_iff in H. destruct H as [r0 [<- _]]. reflexivity.
Qed.

Lemma high_reason_lt t p : str_lt (high_reason t p) "negative_cost".
Proof. reflexivity. Qed.

Lemma concat_two_sorted a b L :
  NoDup L -> Sorted str_lt L -> str_lt a b ->
  (forall s, In s L <-> s = a \/ s = b) ->
  String.concat "; " L = a ++ "; " ++ b.
Proof.
  intros Hn Hs Hab Hin.
  assert (Hp : Permutation [a; b] L).
  { apply NoDup_Permutation.
    - constructor; [|constructor; [intros []|constructor]].
      intros [E|[]]. subst b. exact (str_lt_asym _ _ Hab Hab).
    - exact Hn.
    - intro s. rewrite Hin. simpl. split; [intros [E|[E|[]]]; auto|intros [E|E]; auto]. }
  destruct (Permutation_length_2_inv Hp) as [E|E]; subst L; [reflexivity|].
  inversion Hs as [|x y Hs' Hd]; subst. inversion Hd; subst.
  exfalso. exact (str_lt_asym _ _ Hab H0).
Qed.

(** C4: every key flagged by a check gets exactly one flagged row; its
    reason is the "; "-join of the distinct reasons produced for that key,
    strictly sorted; a row caught by both checks carries the outlier reason
    followed by "negative_cost". *)
Theorem run_quality_checks_reasons df :
  (forall c, In c schema_cols -> In c (columns df)) ->
  exists neg high cleaned flagged,
    flag_negative_costs df = Ok neg /\
    flag_high_encounter_counts df default_percentile = Ok high /\
    run_quality_checks df = Ok (cleaned, flagged) /\
    (forall k, In k (map row_key (rows flagged)) <->
               In k (map row_key (app (rows neg) (rows high)))) /\
    (forall k, In k (map row_key (app (rows neg) (rows high))) ->
       length (filter (fun r => key_eqb (row_key r) k) (rows flagged)) = 1%nat) /\
    (forall r, In r (rows flagged) ->
       exists L, snd r = String.concat "; " L /\ Sorted str_lt L /\ NoDup L /\
         (forall s, In s L <-> exists r', In r' (app (rows neg) (rows high)) /\
                                         row_key r' = row_key r /\ snd r' = s)) /\
    (forall r1 r2, In r1 (rows neg) -> In r2 (rows high) -> row_key r1 = row_key r2 ->
       forall r, In r (rows flagged) -> row_key r = row_key r1 ->
       str_lt (snd r2) (snd r1) /\ snd r = snd r2 ++ "; " ++ snd r1).
Proof.
  intro Hs.
  destruct (run_quality_checks_ok df Hs) as [c [f Hrun]].
  destruct (run_quality_checks_inv _ _ _ Hrun) as [neg [high [En [Eh [Hf _]]]]].
  exists neg, high, c, f. split; [exact En|]. split; [exact Eh|]. split; [exact Hrun|].
  set (F := app (rows neg) (rows high)) in *.
  set (D := dedup_by_key [] F) in *.
  assert (Hkf : map row_key (rows f) = map row_key D) by (rewrite Hf, map_map; reflexivity).
  assert (Hkeys : forall k, In k (map row_key (rows f)) <-> In k (map row_key F)).
  { intro k. rewrite Hkf. split; [apply dedup_by_key_keys_sub|].
    intro H. apply dedup_by_key_keys; [exact H | intros []]. }
  assert (Hrow : forall r, In r (rows f) ->
            exists L, snd r = String.concat "; " L /\ Sorted str_lt L /\ NoDup L /\
              (forall s, In s L <-> exists r', In r' F /\ row_key r' = row_key r /\ snd r' = s)).
  { intros r Hr. rewrite Hf in Hr. apply in_map_iff in Hr. destruct Hr as [r0 [<- _]].
    change (row_key (fst r0, consolidate F (row_key r0))) with (row_key r0).
    exact (consolidate_spec F (row_key r0)). }
  split; [exact Hkeys|]. split.
  { intros k Hk. rewrite Hf.
    rewrite (count_key_map D (fun r => consolidate F (row_key r)) k).
    apply count_key_one; [apply dedup_by_key_nodup|]. rewrite <- Hkf. apply Hkeys. exact Hk. }
  split; [exact Hrow|].
  intros r1 r2 H1 H2 Hk12 r Hr Hkr.
  apply flag_negative_costs_inv in En.
  destruct (flag_high_encounter_counts_inv _ _ _ Eh) as [t [_ Eh']].
  assert (Hneg : forall r', In r' (rows neg) -> snd r' = "negative_cost")
    by (intros r' H; rewrite En in H; exact (set_flag_reason_snd _ _ _ H)).
  assert (Hhigh : forall r', In r' (rows high) -> snd r' = high_reason t default_percentile)
    by (intros r' H; rewrite Eh' in H; exact (set_flag_reason_snd _ _ _ H)).
  rewrite (Hneg r1 H1), (Hhigh r2 H2).
  assert (Hlt := high_reason_lt t default_percentile).
  split; [exact Hlt|].
  destruct (Hrow r Hr) as [L [EL [Hsort [Hnd Hin]]]].
  rewrite EL. apply concat_two_sorted; [exact Hnd | exact Hsort | exact Hlt|].
  intro s. rewrite Hin. split.
  - intros [r' [Hr' [_ <-]]]. apply in_app_iff in Hr'. destruct Hr' as [Hr'|Hr'].
    + right. apply Hneg. exact Hr'.
    + left. apply Hhigh. exact Hr'.
  - intros [E|E].
    + exists r2. split; [apply in_app_iff; right; exact H2|].
      split; [congruence|]. rewrite (Hhigh r2 H2). symmetry. exact E.
    + exists r1. split; [apply in_app_iff; left; exact H1|].
      split; [congruence|]. rewrite (Hneg r1 H1). symmetry. exact E.
Qed.

Lemma run_quality_checks_reasons_witness :
  (forall c, In c schema_cols -> In c (columns both_df)) /\
  exists neg high cleaned flagged,
    flag_negative_costs both_df = Ok neg /\
    flag_high_encounter_counts both_df default_percentile = Ok high /\
    run_quality_checks both_df = Ok (cleaned, flagged) /\
    (forall k, In k (map row_key (rows flagged)) <->
               In k (map row_key (app (rows neg) (rows high)))) /\
    (forall k, In k (map row_key (app (rows neg) (rows high))) ->
       length (filter (fun r => key_eqb (row_key r) k) (rows flagged)) = 1%nat) /\
    (forall r, In r (rows flagged) ->
       exists L, snd r = String.concat "; " L /\ Sorted str_lt L /\ NoDup L /\
         (forall s, In s L <-> exists r', In r' (app (rows neg) (rows high)) /\
                                         row_key r' = row_key r /\ snd r' = s)) /\
    (forall r1 r2, In r1 (rows neg) -> In r2 (rows high) -> row_key r1 = row_key r2 ->
       forall r, In r (rows flagged) -> row_key r = row_key r1 ->
       str_lt (snd r2) (snd r1) /\ snd r = snd r2 ++ "; " ++ snd r1).
Proof.
  assert (Hs : forall c, In c schema_cols -> In c (columns both_df)) by (simpl; tauto).
  split; [exact Hs|]. exact (run_quality_checks_reasons both_df Hs).
Defined.

(** ** Missing key columns *)








(** ** Object identity *)

Lemma deref_last h f : deref (app h [f]) (length h) = f.
Proof. unfold deref. rewrite app_nth2 by lia. rewrite Nat.sub_diag. reflexivity. Qed.

Lemma deref_app h t j : (j < length h)%nat -> deref (app h t) j = deref h j.
Proof. intro H. unfold deref. apply app_nth1. exact H. Qed.

Lemma set_nth_last h f x : set_nth (app h [f]) (length h) x = app h [x].
Proof. induction h as [|g h IH]; simpl; [reflexivity|]. rewrite IH. reflexivity. Qed.

Lemma mbind_get {A} l (k : frame -> M A) h : mbind (get l) k h = k (deref h l) h.
Proof. reflexivity. Qed.

Lemma mbind_alloc {A} f (k : loc -> M A) h : mbind (alloc f) k h = k (length h) (app h [f]).
Proof. reflexivity. Qed.

Lemma mbind_lift {A B} (r : result A) (k : A -> M B) h :
  mbind (lift r) k h = match r with Ok a => k a h | Err e => Err e end.
Proof. destruct r; reflexivity. Qed.

Lemma h_flag_negative_costs_eq l h :
  h_flag_negative_costs l h =
  match flag_negative_costs (deref h l) with
  | Ok f => Ok (length (app h [select (fun e => Qltb (total_cost e) 0) (deref h l)]),
                app (app h [select (fun e => Qltb (total_cost e) 0) (deref h l)]) [f])
  | Err e => Err e
  end.
Proof.
  unfold h_flag_negative_costs, flag_negative_costs.
  rewrite mbind_get, mbind_lift.
  destruct (require_col "total_cost" (deref h l)) as [[]|e]; [|reflexivity].
  rewrite bind_Ok, mbind_alloc, mbind_get, deref_last, mbind_alloc.
  unfold setitem_flag_reason, mbind, get, store, mret.
  rewrite deref_last, set_nth_last. reflexivity.
Qed.

Lemma h_flag_high_encounter_counts_eq l p h :
  h_flag_high_encounter_counts l p h =
  match flag_high_encounter_counts (deref h l) p with
  | Ok f =>
      match quantile (encounter_column (deref h l)) p with
      | Ok t =>
          let s := select (fun e => gt_threshold (total_encounters e) t) (deref h l) in
          Ok (length (app h [s]), app (app h [s]) [f])
      | Err e => Err e
      end
  | Err e => Err e
  end.
Proof.
  unfold h_flag_high_encounter_counts, flag_high_encounter_counts.
  rewrite mbind_get, mbind_lift.
  destruct (require_col "total_encounters" (deref h l)) as [[]|e]; [|reflexivity].
  rewrite bind_Ok, mbind_lift.
  destruct (quantile (encounter_column (deref h l)) p) as [t|e]; [|reflexivity].
  rewrite bind_Ok, mbind_alloc, mbind_get, deref_last, mbind_alloc.
  unfold setitem_flag_reason, mbind, get, store, mret.
  rewrite deref_last, set_nth_last. reflexivity.
Qed.

Lemma mbind_eq {A B} (m : M A) (k : A -> M B) h :
  mbind m k h = match m h with Ok (a, h') => k a h' | Err e => Err e end.
Proof. reflexivity. Qed.
Lemma mbind_ret {A B} (a : A) (k : A -> M B) h : mbind (mret a) k h = k a h.
Proof. reflexivity. Qed.

Ltac deref_simpl :=
  repeat first [ rewrite deref_last
               | rewrite deref_app by (rewrite ?length_app in *; cbn [length] in *; lia) ].

Lemma h_run_quality_checks_sim h l :
  (l < length h)%nat ->
  match h_run_quality_checks l h with
  | Ok ((c, f), h') =>
      (exists t, h' = app h t) /\ deref h' l = deref h l /\
      (length h <= f)%nat /\ (f < c < length h')%nat /\
      run_quality_checks (deref h l) = Ok (deref h' c, deref h' f)
  | Err e => run_quality_checks (deref h l) = Err e
  end.
Proof.
  intros Hl.
  unfold h_run_quality_checks.
  rewrite mbind_eq, h_flag_negative_costs_eq.
  destruct (flag_negative_costs (deref h l)) as [neg|e] eqn:En;
    [|unfold run_quality_checks; rewrite En; reflexivity].
  cbv beta iota.
  rewrite mbind_eq, h_flag_high_encounter_counts_eq.
  deref_simpl.
  destruct (flag_high_encounter_counts (deref h l) default_percentile) as [high|e] eqn:Eh;
    [|unfold run_quality_checks; rewrite En, bind_Ok, Eh; reflexivity].
  destruct (flag_high_encounter_counts_inv _ _ _ Eh) as [t [Et _]]. rewrite Et.
  cbv beta iota zeta.
  rewrite mbind_get, mbind_get, mbind_alloc, mbind_get.
  deref_simpl.
  match goal with |- context [ mbind _ _ ?H ] => remember H as H3 eqn:EH3 end.
  assert (HT3 : exists T, H3 = app h T)
    by (rewrite EH3, <- !app_assoc; eexists; reflexivity).
  assert (Hl3 : deref H3 l = deref h l) by (rewrite EH3; deref_simpl; reflexivity).
  assert (Hc3 : deref H3 (length ((((h ++ [select (fun e => Qltb (total_cost e) 0) (deref h l)]) ++ [neg]) ++
      [select (fun e => gt_threshold (total_encounters e) t) (deref h l)]) ++ [high]))
      = concat_frames neg high) by (rewrite EH3; deref_simpl; reflexivity).
  assert (Hn3 : (length h <= length ((((h ++ [select (fun e => Qltb (total_cost e) 0) (deref h l)]) ++ [neg]) ++
      [select (fun e => gt_threshold (total_encounters e) t) (deref h l)]) ++ [high]) < length H3)%nat)
    by (rewrite EH3, ?length_app; cbn [length]; lia).
  revert Hc3 Hn3.
  generalize (length ((((h ++ [select (fun e => Qltb (total_cost e) 0) (deref h l)]) ++ [neg]) ++
      [select (fun e => gt_threshold (total_encounters e) t) (deref h l)]) ++ [high])).
  intros n3 Hc3 Hn3. clear EH3.
  assert (Hrun : run_quality_checks (deref h l) =
    match group_flags (concat_frames neg high) with
    | Ok fl => match clean_rows (deref h l) fl with
               | Ok cl => Ok (cl, fl) | Err e => Err e end
    | Err e => Err e
    end) by (unfold run_quality_checks; rewrite En, bind_Ok, Eh, bind_Ok; reflexivity).
  rewrite Hrun. clear Hrun.
  destruct HT3 as [T3 ->].
  destruct (is_empty (concat_frames neg high)) eqn:Ee.
  - assert (Eg : group_flags (concat_frames neg high) = Ok (concat_frames neg high))
      by (unfold group_flags; rewrite Ee; reflexivity).
    rewrite Eg, mbind_ret, mbind_get, Hc3, Ee, mbind_get, Hl3, mbind_alloc.
    unfold clean_rows. rewrite Ee. unfold mret.
    split; [eexists; rewrite <- !app_assoc; reflexivity|].
    split; [deref_simpl; first [reflexivity | exact Hl3]|].
    split; [lia|]. split; [rewrite ?length_app in *; cbn [length]; lia|].
    deref_simpl. rewrite Hc3. reflexivity.
  - rewrite mbind_eq, mbind_lift.
    destruct (group_flags (concat_frames neg high)) as [g|e] eqn:Eg; [|reflexivity].
    unfold alloc at 1. cbv beta iota.
    rewrite mbind_get, deref_last, mbind_get. deref_simpl. rewrite ?Hl3.
    destruct (is_empty g) eqn:Eg2.
    + assert (Ec : clean_rows (deref h l) g = Ok (deref h l))
        by (unfold clean_rows; rewrite Eg2; reflexivity).
      rewrite Ec, mbind_alloc. unfold mret.
      split; [eexists; rewrite <- !app_assoc; reflexivity|].
      split; [deref_simpl; first [reflexivity | exact Hl3]|].
      split; [rewrite ?length_app in *; cbn [length]; lia|].
      split; [rewrite ?length_app in *; cbn [length]; lia|].
      deref_simpl. reflexivity.
    + rewrite mbind_eq, mbind_lift.
      destruct (clean_rows (deref h l) g) as [cl|e]; [|reflexivity].
      unfold alloc at 1. cbv beta iota. unfold mret.
      split; [eexists; rewrite <- !app_assoc; reflexivity|].
      split; [deref_simpl; first [reflexivity | exact Hl3]|].
      split; [rewrite ?length_app in *; cbn [length]; lia|].
      split; [rewrite ?length_app in *; cbn [length]; lia|].
      deref_simpl. reflexivity.
Qed.

Lemma h_flag_negative_costs_sim h l :
  (l < length h)%nat ->
  match h_flag_negative_costs l h with
  | Ok (f, h') =>
      (exists t, h' = app h t) /\ deref h' l = deref h l /\
      (length h <= f < length h')%nat /\
      flag_negative_costs (deref h l) = Ok (deref h' f)
  | Err e => flag_negative_costs (deref h l) = Err e
  end.
Proof.
  intro Hl. rewrite h_flag_negative_costs_eq.
  destruct (flag_negative_costs (deref h l)) as [f|e]; [|reflexivity].
  split; [eexists; rewrite <- app_assoc; reflexivity|].
  split; [deref_simpl; reflexivity|].
  split; [rewrite ?length_app; cbn [length]; lia|].
  rewrite deref_last. reflexivity.
Qed.

Lemma h_flag_high_encounter_counts_sim h l p :
  (l < length h)%nat ->
  match h_flag_high_encounter_counts l p h with
  | Ok (f, h') =>
      (exists t, h' = app h t) /\ deref h' l = deref h l /\
      (length h <= f < length h')%nat /\
      flag_high_encounter_counts (deref h l) p = Ok (deref h' f)
  | Err e => flag_high_encounter_counts (deref h l) p = Err e
  end.
Proof.
  intro Hl. rewrite h_flag_high_encounter_counts_eq.
  destruct (flag_high_encounter_counts (deref h l) p) as [f|e] eqn:Eh; [|reflexivity].
  destruct (flag_high_encounter_counts_inv _ _ _ Eh) as [t [Et _]]. rewrite Et.
  cbv zeta.
  split; [eexists; rewrite <- app_assoc; reflexivity|].
  split; [deref_simpl; reflexivity|].
  split; [rewrite ?length_app; cbn [length]; lia|].
  rewrite deref_last. reflexivity.
Qed.

(** C9: with DataFrames as objects on a heap, each check and the
    reconciler only append new objects: every object that existed before
    the call, the input table included, is the same afterwards (same rows,
    same columns, no [flag_reason] added); the returned tables are fresh
    objects, distinct from the input and from each other, and hold what the
    value-level functions compute. *)
Theorem quality_checks_no_mutation h l p :
  (l < length h)%nat ->
  match h_flag_negative_costs l h with
  | Ok (f, h') =>
      (exists t, h' = app h t) /\ deref h' l = deref h l /\
      (length h <= f < length h')%nat /\
      flag_negative_costs (deref h l) = Ok (deref h' f)
  | Err e => flag_negative_costs (deref h l) = Err e
  end /\
  match h_flag_high_encounter_counts l p h with
  | Ok (f, h') =>
      (exists t, h' = app h t) /\ deref h' l = deref h l /\
      (length h <= f < length h')%nat /\
      flag_high_encounter_counts (deref h l) p = Ok (deref h' f)
  | Err e => flag_high_encounter_counts (deref h l) p = Err e
  end /\
  match h_run_quality_checks l h with
  | Ok ((c, f), h') =>
      (exists t, h' = app h t) /\ deref h' l = deref h l /\
      (length h <= f)%nat /\ (f < c < length h')%nat /\
      run_quality_checks (deref h l) = Ok (deref h' c, deref h' f)
  | Err e => run_quality_checks (deref h l) = Err e
  end.
Proof.
  intro Hl. split; [|split].
  - exact (h_flag_negative_costs_sim h l Hl).
  - exact (h_flag_high_encounter_counts_sim h l p Hl).
  - exact (h_run_quality_checks_sim h l Hl).
Qed.

Lemma quality_checks_no_mutation_witness :
  (0 < length [sample_df])%nat /\
  match h_flag_negative_costs 0%nat [sample_df] with
  | Ok (f, h') =>
      (exists t, h' = app [sample_df] t) /\ deref h' 0%nat = deref [sample_df] 0%nat /\
      (length [sample_df] <= f < length h')%nat /\
      flag_negative_costs (deref [sample_df] 0%nat) = Ok (deref h' f)
  | Err e => flag_negative_costs (deref [sample_df] 0%nat) = Err e
  end /\
  match h_flag_high_encounter_counts 0%nat default_percentile [sample_df] with
  | Ok (f, h') =>
      (exists t, h' = app [sample_df] t) /\ deref h' 0%nat = deref [sample_df] 0%nat /\
      (length [sample_df] <= f < length h')%nat /\
      flag_high_encounter_counts (deref [sample_df] 0%nat) default_percentile = Ok (deref h' f)
  | Err e => flag_high_encounter_counts (deref [sample_df] 0%nat) default_percentile = Err e
  end /\
  match h_run_quality_checks 0%nat [sample_df] with
  | Ok ((c, f), h') =>
      (exists t, h' = app [sample_df] t) /\ deref h' 0%nat = deref [sample_df] 0%nat /\
      (length [sample_df] <= f)%nat /\ (f < c < length h')%nat /\
      run_quality_checks (deref [sample_df] 0%nat) = Ok (deref h' c, deref h' f)
  | Err e => run_quality_checks (deref [sample_df] 0%nat) = Err e
  end.
Proof.
  assert (H : (0 < length [sample_df])%nat) by (simpl; lia).
  split; [exact H|].
  exact (quality_checks_no_mutation [sample_df] 0%nat default_percentile H).
Defined.


(** ** Strings of the report *)

Lemma str_all_app p s1 s2 : str_all p (s1 ++ s2) = str_all p s1 && str_all p s2.
Proof. induction s1 as [|c s1 IH]; simpl; [reflexivity|]. rewrite IH, andb_assoc. reflexivity. Qed.

Lemma str_all_impl (p q : ascii -> bool) s :
  (forall c, p c = true -> q c = true) -> str_all p s = true -> str_all q s = true.
Proof.
  intro H. induction s as [|c s IH]; simpl; [reflexivity|].
  intro Hs. apply andb_true_iff in Hs. destruct Hs as [Hc Hs].
  rewrite (H c Hc), (IH Hs). reflexivity.
Qed.

Lemma digit_char_fmt d : (0 <= d < 10)%Z -> fmt_char (digit_char d) = true.
Proof.
  intro H.
  assert (E : d = 0%Z \/ d = 1%Z \/ d = 2%Z \/ d = 3%Z \/ d = 4%Z \/ d = 5%Z \/
              d = 6%Z \/ d = 7%Z \/ d = 8%Z \/ d = 9%Z) by lia.
  repeat destruct E as [E|E]; subst d; reflexivity.
Qed.

Lemma digits_aux_fmt fuel n acc :
  (0 <= n)%Z -> str_all fmt_char acc = true -> str_all fmt_char (digits_aux fuel n acc) = true.
Proof.
  revert n acc. induction fuel as [|fuel IH]; intros n acc Hn Ha; cbn [digits_aux]; [exact Ha|].
  assert (Hd : fmt_char (digit_char (n mod 10)) = true)
    by (apply digit_char_fmt; apply Z.mod_pos_bound; lia).
  assert (Hs : str_all fmt_char (String (digit_char (n mod 10)) acc) = true)
    by (cbn [str_all]; rewrite Hd, Ha; reflexivity).
  destruct (Z.ltb n 10); [exact Hs|].
  apply IH; [apply Z.div_pos; lia | exact Hs].
Qed.

Lemma fmt_0f_chars t : str_all fmt_char (fmt_0f t) = true.
Proof.
  destruct t as [q|]; [|reflexivity]. unfold fmt_0f, digits.
  destruct (Qle_bool 0 q).
  - apply digits_aux_fmt; [lia | reflexivity].
  - rewrite str_all_app. apply andb_true_iff. split; [reflexivity|].
    apply digits_aux_fmt; [lia | reflexivity].
Qed.

Lemma fmt_char_cases c :
  fmt_char c = true ->
  In c ["0"; "1"; "2"; "3"; "4"; "5"; "6"; "7"; "8"; "9"; "-"; "n"; "a"]%char.
Proof.
  unfold fmt_char. intro H. apply existsb_exists in H. destruct H as [x [Hx Hc]].
  apply Ascii.eqb_eq in Hc. subst x. exact Hx.
Qed.

Lemma no_pair_app a b s1 s2 : no_pair a b s1 -> no_pair a b s2 -> no_pair a b (s1 ++ s2).
Proof.
  intros [H1 E1] [H2 E2]. induction s1 as [|x r IH]; [split; assumption|].
  unfold no_pair. cbn [append].
  change (has_pair a b (String x (r ++ s2)))
    with ((Ascii.eqb x a && starts_with b (r ++ s2)) || has_pair a b (r ++ s2)).
  destruct r as [|y r'].
  - change (Ascii.eqb x a = false) in E1. cbn [append]. rewrite E1, H2.
    split; [reflexivity|]. destruct s2; [exact E1 | exact E2].
  - change (has_pair a b (String x (String y r')))
      with ((Ascii.eqb x a && Ascii.eqb y b) || has_pair a b (String y r')) in H1.
    apply orb_false_iff in H1. destruct H1 as [H1a H1b].
    destruct (IH H1b E1) as [IHa IHb]. split.
    + rewrite IHa, orb_false_r. exact H1a.
    + exact IHb.
Qed.

Lemma no_pair_chars a b s : str_all (fun c => negb (Ascii.eqb c a)) s = true -> no_pair a b s.
Proof.
  induction s as [|x r IH]; [intros _; split; reflexivity|].
  intro H. change (negb (Ascii.eqb x a) && str_all (fun c => negb (Ascii.eqb c a)) r = true) in H.
  apply andb_true_iff in H. destruct H as [Hx Hr]. apply negb_true_iff in Hx.
  destruct (IH Hr) as [IHa IHb]. unfold no_pair.
  change (has_pair a b (String x r))
    with ((Ascii.eqb x a && starts_with b r) || has_pair a b r).
  rewrite Hx, IHa. split; [reflexivity|].
  destruct r; [exact Hx | exact IHb].
Qed.

Lemma fmt_no_pair a b t : fmt_char a = false -> no_pair a b (fmt_0f t).
Proof.
  intro Ha. apply no_pair_chars. apply (str_all_impl fmt_char); [|apply fmt_0f_chars].
  intros c Hc. apply negb_true_iff. destruct (Ascii.eqb c a) eqn:E; [|reflexivity].
  apply Ascii.eqb_eq in E. subst. congruence.
Qed.

Lemma high_reason_no_pair a b t p :
  fmt_char a = false ->
  no_pair a b "high_encounter_count (>" -> no_pair a b ", p" -> no_pair a b ")" ->
  no_pair a b (high_reason t p).
Proof.
  intros Ha H1 H2 H3. unfold high_reason.
  repeat (apply no_pair_app; [first [assumption | apply fmt_no_pair; exact Ha] |]).
  exact H3.
Qed.

Lemma match_here_pair a b pre post s :
  match_here (app pre (Lit a :: Lit b :: post)) s = true -> has_pair a b s = true.
Proof.
  revert s. induction pre as [|i pre IH]; intros s H.
  - destruct s as [|c [|d s']]; simpl in H; [discriminate | rewrite andb_false_r in H; discriminate|].
    apply andb_true_iff in H. destruct H as [Hc H]. apply andb_true_iff in H. destruct H as [Hd _].
    apply Ascii.eqb_eq in Hc. apply Ascii.eqb_eq in Hd. subst c d.
    change (((a =? a)%char && (b =? b)%char) || has_pair a b (String b s') = true).
    rewrite !Ascii.eqb_refl. reflexivity.
  - destruct s as [|c s']; simpl in H; [discriminate|].
    apply andb_true_iff in H. destruct H as [_ H].
    simpl. rewrite (IH s' H), orb_true_r. reflexivity.
Qed.

Lemma re_search_pair a b pre post s :
  re_search (app pre (Lit a :: Lit b :: post)) s = true -> has_pair a b s = true.
Proof.
  induction s as [|c s IH]; intro H; simpl in H.
  - rewrite orb_false_r in H. exact (match_here_pair _ _ _ _ _ H).
  - apply orb_true_iff in H. destruct H as [H|H].
    + exact (match_here_pair _ _ _ _ _ H).
    + simpl. rewrite (IH H), orb_true_r. reflexivity.
Qed.

Lemma re_search_app_r its s1 s2 : re_search its s2 = true -> re_search its (s1 ++ s2) = true.
Proof.
  intro H. induction s1 as [|c s1 IH]; simpl; [exact H|]. rewrite IH, orb_true_r. reflexivity.
Qed.

Lemma re_items_lits d T rest :
  str_all fmt_char T = true ->
  re_items d (T ++ rest) =
  fold_right cons_item (re_items d rest) (map Lit (list_ascii_of_string T)).
Proof.
  induction T as [|c T IH]; simpl; intro H; [reflexivity|].
  apply andb_true_iff in H. destruct H as [Hc HT]. rewrite <- (IH HT).
  apply fmt_char_cases in Hc. simpl in Hc.
  repeat destruct Hc as [<-|Hc]; [reflexivity ..|destruct Hc].
Qed.

Lemma fold_cons_compiled xs l :
  fold_right cons_item (Compiled l) (map Lit xs) = Compiled (app (map Lit xs) l).
Proof. induction xs as [|x xs IH]; simpl; [reflexivity|]. rewrite IH. reflexivity. Qed.

Lemma split_first_app s1 s2 :
  str_all (fun c => negb (Ascii.eqb c ";")) s1 = true ->
  split_first ";" (s1 ++ s2) = s1 ++ split_first ";" s2.
Proof.
  induction s1 as [|c s1 IH]; simpl; intro H; [reflexivity|].
  apply andb_true_iff in H. destruct H as [Hc H]. apply negb_true_iff in Hc.
  rewrite Hc, (IH H). reflexivity.
Qed.

Lemma str_app_nil s : s ++ "" = s.
Proof. induction s as [|c s IH]; simpl; [reflexivity|]. rewrite IH. reflexivity. Qed.

Lemma rstrip_app s1 s2 : rstrip s2 = s2 -> s2 <> "" -> rstrip (s1 ++ s2) = s1 ++ s2.
Proof.
  intros H Hne. induction s1 as [|c s1 IH]; simpl; [exact H|].
  rewrite IH. destruct (s1 ++ s2) eqn:E.
  - destruct s1; simpl in E; [contradiction | discriminate].
  - rewrite andb_false_r. reflexivity.
Qed.

Lemma rstrip_cons c r : r <> "" -> rstrip r = r -> rstrip (String c r) = String c r.
Proof.
  intros Hne H. cbn [rstrip]. rewrite H. destruct r; [contradiction|].
  rewrite andb_false_r. reflexivity.
Qed.

Lemma str_app_neq_nil s1 s2 : s2 <> "" -> s1 ++ s2 <> "".
Proof. destruct s1; simpl; [tauto | discriminate]. Qed.

Lemma high_reason_strip t p : py_strip (high_reason t p) = high_reason t p.
Proof.
  unfold py_strip. replace (lstrip (high_reason t p)) with (high_reason t p) by reflexivity.
  unfold high_reason. cbn [append].
  repeat (apply rstrip_cons; [solve [discriminate | apply str_app_neq_nil; discriminate]|]).
  apply rstrip_app; [|discriminate].
  repeat (apply rstrip_cons; [solve [discriminate | apply str_app_neq_nil; discriminate]|]).
  apply rstrip_app; [reflexivity | discriminate].
Qed.

(** ** Patterns of the report *)

Lemma split_first_none s :
  str_all (fun c => negb (Ascii.eqb c ";")) s = true -> split_first ";" s = s.
Proof.
  induction s as [|c s IH]; intro H; [reflexivity|].
  change (negb (Ascii.eqb c ";") && str_all (fun c => negb (Ascii.eqb c ";")) s = true) in H.
  apply andb_true_iff in H. destruct H as [Hc H]. apply negb_true_iff in Hc.
  cbn [split_first]. rewrite Hc, (IH H). reflexivity.
Qed.

Lemma high_reason_semi t p : str_all (fun c => negb (Ascii.eqb c ";")) (high_reason t p) = true.
Proof.
  assert (Hf : forall t', str_all (fun c => negb (Ascii.eqb c ";")) (fmt_0f t') = true).
  { intro t'. apply (str_all_impl fmt_char); [|apply fmt_0f_chars].
    intros c Hc. apply fmt_char_cases in Hc. simpl in Hc.
    repeat destruct Hc as [<-|Hc]; [reflexivity ..|destruct Hc]. }
  unfold high_reason. rewrite !str_all_app, !Hf. reflexivity.
Qed.

Lemma high_reason_split t p s :
  s = high_reason t p \/ s = high_reason t p ++ "; " ++ "negative_cost" ->
  split_first ";" s = high_reason t p.
Proof.
  intros [->| ->].
  - apply split_first_none, high_reason_semi.
  - rewrite (split_first_app (high_reason t p) ("; " ++ "negative_cost") (high_reason_semi t p)).
    change (split_first ";" ("; " ++ "negative_cost")) with "".
    exact (str_app_nil (high_reason t p)).
Qed.

Lemma re_items_plain d T rest :
  str_all re_plain T = true ->
  re_items d (T ++ rest) =
  fold_right cons_item (re_items d rest) (map Lit (list_ascii_of_string T)).
Proof.
  induction T as [|c T IH]; intro H; [reflexivity|].
  change (re_plain c && str_all re_plain T = true) in H.
  apply andb_true_iff in H. destruct H as [Hc HT].
  cbn [append list_ascii_of_string map fold_right]. rewrite <- (IH HT).
  unfold re_plain in Hc. cbn [re_items].
  destruct (Ascii.eqb c "("), (Ascii.eqb c ")"), (Ascii.eqb c "."), (re_special c);
    try discriminate Hc; reflexivity.
Qed.

Lemma high_reason_items t p :
  exists post, re_items 0 (high_reason t p) =
    Compiled (app (map Lit (list_ascii_of_string "high_encounter_count")) (Lit " " :: Lit ">" :: post)).
Proof.
  unfold high_reason.
  set (R := fmt_0f t ++ ", p" ++ fmt_0f (Some (p * 100)) ++ ")").
  change ("high_encounter_count (>" ++ R) with ("high_encounter_count " ++ String "(" (">" ++ R)).
  rewrite (re_items_plain 0 "high_encounter_count " (String "(" (">" ++ R)) eq_refl).
  change (re_items 0 (String "(" (">" ++ R))) with (re_items 1 (">" ++ R)).
  rewrite (re_items_plain 1 ">" R eq_refl).
  unfold R.
  rewrite (re_items_lits 1 (fmt_0f t) _ (fmt_0f_chars t)).
  rewrite (re_items_plain 1 ", p" _ eq_refl).
  rewrite (re_items_lits 1 (fmt_0f (Some (p * 100))) _ (fmt_0f_chars _)).
  change (re_items 1 ")") with (Compiled []).
  rewrite !fold_cons_compiled.
  eexists. reflexivity.
Qed.

Lemma high_reason_pattern t p s :
  s = high_reason t p \/ s = high_reason t p ++ "; " ++ "negative_cost" ->
  exists pre post,
    re_compile (py_strip (split_first ";" s)) = Compiled (app pre (Lit " " :: Lit ">" :: post)).
Proof.
  intro Hs. rewrite (high_reason_split t p s Hs), (high_reason_strip t p).
  destruct (high_reason_items t p) as [post E]. unfold re_compile. rewrite E.
  eexists. eexists. reflexivity.
Qed.

Lemma negative_pattern :
  re_compile (py_strip (split_first ";" "negative_cost")) =
  Compiled (app [Lit "n"] (Lit "e" :: Lit "g" :: map Lit (list_ascii_of_string "ative_cost"))).
Proof. reflexivity. Qed.

Lemma high_items_miss t pre post s :
  reason_shape t s -> re_search (app pre (Lit " " :: Lit ">" :: post)) s = false.
Proof.
  intro Hs.
  assert (Hh : no_pair " " ">" (high_reason t default_percentile))
    by (apply high_reason_no_pair; split; reflexivity).
  assert (Hn : no_pair " " ">" s).
  { destruct Hs as [->|[->| ->]]; [split; reflexivity | exact Hh |].
    apply no_pair_app; [exact Hh | split; reflexivity]. }
  destruct (re_search _ s) eqn:E; [|reflexivity].
  apply re_search_pair in E. destruct Hn as [Hn _]. congruence.
Qed.

Lemma str_app_id s1 s2 : s1 ++ s2 = s1 -> s2 = "".
Proof.
  induction s1 as [|c s1 IH]; intro H; [exact H|].
  apply IH. injection H as H. exact H.
Qed.

Lemma negative_items_hit t s :
  reason_shape t s ->
  re_search (app [Lit "n"] (Lit "e" :: Lit "g" :: map Lit (list_ascii_of_string "ative_cost"))) s =
  negb (String.eqb s (high_reason t default_percentile)).
Proof.
  assert (Hne : high_reason t default_percentile <> "negative_cost")
    by (intro E; pose proof (high_reason_lt t default_percentile) as H; rewrite E in H;
        exact (str_lt_asym _ _ H H)).
  intros [->|[->| ->]].
  - replace (String.eqb "negative_cost" (high_reason t default_percentile)) with false.
    + reflexivity.
    + symmetry. apply String.eqb_neq. intro E. apply Hne. symmetry. exact E.
  - rewrite String.eqb_refl.
    assert (Hh : no_pair "e" "g" (high_reason t default_percentile))
      by (apply high_reason_no_pair; split; reflexivity).
    destruct (re_search _ _) eqn:E; [|reflexivity].
    apply re_search_pair in E. destruct Hh as [Hh _]. congruence.
  - replace (String.eqb _ (high_reason t default_percentile)) with false.
    + apply re_search_app_r. reflexivity.
    + symmetry. apply String.eqb_neq. intro E.
      apply str_app_id in E. discriminate E.
Qed.

(** ** The FLAG BREAKDOWN of the flagged table *)

Lemma dedup_by_key_app_r seen A B r :
  In r (dedup_by_key seen (app A B)) ->
  In r A \/ (In r B /\ ~ In (row_key r) (map row_key A)).
Proof.
  revert seen. induction A as [|a A IH]; intros seen H; cbn [app] in H.
  - right. split; [exact (proj1 (dedup_by_key_sub _ _ _ H)) | intros []].
  - cbn [dedup_by_key] in H.
    assert (Hk : forall seen', In r (dedup_by_key seen' (app A B)) ->
                 ~ In (row_key r) seen' -> row_key a <> row_key r ->
                 In r (a :: A) \/ (In r B /\ ~ In (row_key r) (map row_key (a :: A)))).
    { intros seen' H' _ Hne. destruct (IH seen' H') as [HA|[HB HnA]]; [left; right; exact HA|].
      right. split; [exact HB|]. intros [E|E]; [exact (Hne E) | exact (HnA E)]. }
    destruct (key_mem (row_key a) seen) eqn:E.
    + apply Hk with seen; [exact H | exact (proj2 (dedup_by_key_sub _ _ _ H))|].
      intro Ek. apply key_mem_spec in E. apply (proj2 (dedup_by_key_sub _ _ _ H)).
      rewrite <- Ek. exact E.
    + destruct H as [<-|H]; [left; left; reflexivity|].
      apply Hk with (row_key a :: seen); [exact H | exact (proj2 (dedup_by_key_sub _ _ _ H))|].
      intro Ek. apply (proj2 (dedup_by_key_sub _ _ _ H)). left. exact Ek.
Qed.

Lemma concat_one L a : NoDup L -> (forall s, In s L <-> s = a) -> String.concat "; " L = a.
Proof.
  intros Hn Hin. destruct L as [|x [|y L]].
  - destruct (proj2 (Hin a) eq_refl).
  - apply Hin. left. reflexivity.
  - exfalso. inversion Hn as [|x' l' Hx _]; subst.
    apply Hx. left. rewrite (proj1 (Hin x) (or_introl eq_refl)).
    exact (proj1 (Hin y) (or_intror (or_introl eq_refl))).
Qed.

Lemma run_flagged_shape df cleaned flagged :
  run_quality_checks df = Ok (cleaned, flagged) ->
  exists t, forall r, In r (rows flagged) ->
    (Qltb (total_cost (fst r)) 0 = true /\
     (snd r = "negative_cost" \/
      snd r = high_reason t default_percentile ++ "; " ++ "negative_cost")) \/
    (Qltb (total_cost (fst r)) 0 = false /\ snd r = high_reason t default_percentile).
Proof.
  intro Hrun.
  destruct (run_quality_checks_inv _ _ _ Hrun) as [neg [high [En [Eh [Hf _]]]]].
  apply flag_negative_costs_inv in En.
  destruct (flag_high_encounter_counts_inv _ _ _ Eh) as [t [_ Eh']].
  exists t. set (hr := high_reason t default_percentile).
  assert (Hneg : forall r', In r' (rows neg) ->
            snd r' = "negative_cost" /\ Qltb (total_cost (fst r')) 0 = true).
  { intros [e s] H. rewrite En in H. apply in_select_map in H. simpl. tauto. }
  assert (Hhigh : forall r', In r' (rows high) -> snd r' = hr /\ exists s, In (fst r', s) (rows df)).
  { intros [e s] H. rewrite Eh' in H. apply in_select_map in H. simpl. tauto. }
  assert (Hall : forall e s, In (e, s) (rows df) -> Qltb (total_cost e) 0 = true ->
            In (e, "negative_cost") (rows neg)).
  { intros e s H Hc. rewrite En. apply in_select_map. split; [exists s; exact H|]. tauto. }
  intros r Hr. rewrite Hf in Hr. apply in_map_iff in Hr. destruct Hr as [r0 [<- Hr0]].
  cbn [fst snd].
  set (F := app (rows neg) (rows high)) in *.
  destruct (consolidate_spec F (row_key r0)) as [L [EL [Hs [Hnd Hin]]]]. rewrite EL.
  assert (Hr0F : In r0 F) by exact (proj1 (dedup_by_key_sub _ _ _ Hr0)).
  assert (Hlt : str_lt hr "negative_cost") by apply high_reason_lt.
  destruct (dedup_by_key_app_r [] (rows neg) (rows high) r0 Hr0) as [H0|[H0 Hnk]].
  - destruct (Hneg r0 H0) as [Hs0 Hc0]. left. split; [exact Hc0|].
    destruct (in_dec String.string_dec hr L) as [Hh|Hh].
    + right. apply concat_two_sorted; [exact Hnd | exact Hs | exact Hlt|].
      intro s. split.
      * intro H. apply Hin in H. destruct H as [r' [Hr' [_ <-]]].
        apply in_app_iff in Hr'. destruct Hr' as [Hr'|Hr'];
          [right; apply Hneg | left; apply Hhigh]; exact Hr'.
      * intros [->| ->]; [exact Hh|]. apply Hin. exists r0. tauto.
    + left. apply concat_one; [exact Hnd|]. intro s. split.
      * intro H. assert (H' := H). apply Hin in H'. destruct H' as [r' [Hr' [_ <-]]].
        apply in_app_iff in Hr'. destruct Hr' as [Hr'|Hr']; [apply Hneg; exact Hr'|].
        exfalso. apply Hh. rewrite <- (proj1 (Hhigh r' Hr')). exact H.
      * intros ->. apply Hin. exists r0. tauto.
  - destruct (Hhigh r0 H0) as [Hs0 [s Hdf]]. right.
    destruct (Qltb (total_cost (fst r0)) 0) eqn:Hc.
    + exfalso. apply Hnk. apply (Hall _ _ Hdf) in Hc.
      change (row_key r0) with (row_key (fst r0, "negative_cost")). apply in_map. exact Hc.
    + split; [reflexivity|]. apply concat_one; [exact Hnd|]. intro s'. split.
      * intro H. apply Hin in H. destruct H as [r' [Hr' [Hk <-]]].
        apply in_app_iff in Hr'. destruct Hr' as [Hr'|Hr']; [|apply Hhigh; exact Hr'].
        exfalso. apply Hnk. rewrite <- Hk. apply in_map. exact Hr'.
      * intros ->. apply Hin. exists r0. tauto.
Qed.

Lemma group_flags_columns g f :
  group_flags g = Ok f -> In "flag_reason" (columns g) -> In "flag_reason" (columns f).
Proof.
  unfold group_flags. destruct (negb (is_empty g)).
  - destruct (require_cols key_cols g) as [[]|e]; cbn [bind]; [|discriminate].
    intros E _. injection E as <-. simpl. apply in_or_app. right. left. reflexivity.
  - intros E H. injection E as <-. exact H.
Qed.

Lemma run_flagged_columns df cleaned flagged :
  run_quality_checks df = Ok (cleaned, flagged) -> In "flag_reason" (columns flagged).
Proof.
  intro H. unfold run_quality_checks in H.
  destruct (flag_negative_costs df) as [neg|e] eqn:En; [|discriminate H]. simpl in H.
  destruct (flag_high_encounter_counts df default_percentile) as [high|e];
    [|discriminate H]. simpl in H.
  destruct (group_flags (concat_frames neg high)) as [fl|e] eqn:Eg; [|discriminate H].
  simpl in H. destruct (clean_rows df fl) as [cl|e]; [|discriminate H]. simpl in H.
  injection H as <- <-. apply (group_flags_columns _ _ Eg). simpl. apply in_or_app. left.
  apply flag_negative_costs_inv in En. rewrite En. apply add_col_self.
Qed.

Lemma breakdown_counts_done us reasons :
  (forall u, In u us -> exists its, re_compile (py_strip (split_first ";" u)) = Compiled its) ->
  exists ps, breakdown_counts us reasons = Done ps /\ map fst ps = us /\
    forall u n, In (u, n) ps -> exists its,
      re_compile (py_strip (split_first ";" u)) = Compiled its /\
      n = length (filter (re_search its) reasons).
Proof.
  induction us as [|u us IH]; intro H.
  - exists []. split; [reflexivity|]. split; [reflexivity | intros u n []].
  - destruct (H u (or_introl eq_refl)) as [its E].
    destruct IH as [ps [Eb [Hm Hp]]]; [intros u' Hu'; apply H; right; exact Hu'|].
    exists ((u, length (filter (re_search its) reasons)) :: ps).
    cbn [breakdown_counts]. rewrite E, Eb. split; [reflexivity|].
    split; [cbn [map fst]; f_equal; exact Hm|].
    intros u' n [E'|H']; [injection E' as <- <-; exists its; tauto | exact (Hp _ _ H')].
Qed.

Lemma length_filter_map {A B} (f : B -> bool) (g : A -> B) l :
  length (filter f (map g l)) = length (filter (fun x => f (g x)) l).
Proof.
  induction l as [|a l IH]; cbn [map filter]; [reflexivity|].
  destruct (f (g a)); cbn [length]; rewrite IH; reflexivity.
Qed.

Lemma length_filter_none {A} (f : A -> bool) l :
  (forall x, In x l -> f x = false) -> length (filter f l) = 0%nat.
Proof.
  induction l as [|a l IH]; intro H; cbn [filter]; [reflexivity|].
  rewrite (H a (or_introl eq_refl)). apply IH. intros x Hx. apply H. right. exact Hx.
Qed.

Lemma flag_breakdown_run df cleaned flagged :
  run_quality_checks df = Ok (cleaned, flagged) -> rows flagged <> [] ->
  exists t ps,
    flag_breakdown flagged = Done ("" :: "  FLAG BREAKDOWN:" :: map breakdown_line ps) /\
    map fst ps = unique (map snd (rows flagged)) /\
    (forall r, In r (rows flagged) -> reason_shape t (snd r)) /\
    (forall r, In r (rows flagged) ->
       (snd r = high_reason t default_percentile <-> Qltb (total_cost (fst r)) 0 = false)) /\
    forall u n, In (u, n) ps -> exists its,
      re_compile (py_strip (split_first ";" u)) = Compiled its /\
      n = length (filter (re_search its) (map snd (rows flagged))).
Proof.
  intros Hrun Hne.
  destruct (run_flagged_shape _ _ _ Hrun) as [t Hsh].
  assert (Hne' : high_reason t default_percentile <> "negative_cost")
    by (intro E; pose proof (high_reason_lt t default_percentile) as H; rewrite E in H;
        exact (str_lt_asym _ _ H H)).
  assert (Hshape : forall r, In r (rows flagged) -> reason_shape t (snd r)).
  { intros r Hr. unfold reason_shape. destruct (Hsh r Hr) as [[_ [H|H]]|[_ H]]; tauto. }
  assert (Hcomp : forall u, In u (unique (map snd (rows flagged))) ->
            exists its, re_compile (py_strip (split_first ";" u)) = Compiled its).
  { intros u Hu. apply (proj1 (unique_in _ _)) in Hu. apply in_map_iff in Hu.
    destruct Hu as [r [<- Hr]]. destruct (Hshape r Hr) as [E|E].
    - rewrite E, negative_pattern. eexists. reflexivity.
    - destruct (high_reason_pattern t default_percentile (snd r) E) as [pre [post Ep]].
      rewrite Ep. eexists. reflexivity. }
  destruct (breakdown_counts_done _ (map snd (rows flagged)) Hcomp) as [ps [Eb [Hm Hp]]].
  exists t, ps.
  assert (Hcol := run_flagged_columns _ _ _ Hrun).
  assert (He : is_empty flagged = false).
  { unfold is_empty. destruct (rows flagged); [congruence|].
    destruct (columns flagged); [destruct Hcol | reflexivity]. }
  split.
  { unfold flag_breakdown. rewrite He, (in_cols_has_col _ _ Hcol). cbv zeta. rewrite Eb.
    reflexivity. }
  split; [exact Hm|]. split; [exact Hshape|]. split; [|exact Hp].
  intros r Hr. destruct (Hsh r Hr) as [[Hc [H|H]]|[Hc H]]; rewrite Hc, H.
  - split; [intro E; symmetry in E; contradiction | discriminate].
  - split; [intro E; apply str_app_id in E; discriminate E | discriminate].
  - split; reflexivity.
Qed.

(** X1: the FLAG BREAKDOWN section of [generate_report] on the flagged
    table of a run with at least one flagged row raises no exception,
    prints one line per distinct reason, and every line whose reason is
    not ["negative_cost"] reports 0 records.  The part of an outlier reason
    before [;] is used as a regular expression: its parentheses form a
    group, so it looks for ["high_encounter_count >..."] without them, a
    text no reason contains. *)
Theorem report_breakdown_outlier_counts df cleaned flagged :
  run_quality_checks df = Ok (cleaned, flagged) -> rows flagged <> [] ->
  exists ps,
    flag_breakdown flagged = Done ("" :: "  FLAG BREAKDOWN:" :: map breakdown_line ps) /\
    map fst ps = unique (map snd (rows flagged)) /\
    forall u n, In (u, n) ps -> u <> "negative_cost" -> n = 0%nat.
Proof.
  intros Hrun Hne.
  destruct (flag_breakdown_run _ _ _ Hrun Hne) as [t [ps [Eb [Hm [Hshape [_ Hp]]]]]].
  exists ps. split; [exact Eb|]. split; [exact Hm|].
  intros u n Hin Hu. destruct (Hp u n Hin) as [its [Ec ->]].
  assert (Hu' : In u (map snd (rows flagged))).
  { apply (proj1 (unique_in _ _)). rewrite <- Hm. exact (in_map fst _ _ Hin). }
  apply in_map_iff in Hu'. destruct Hu' as [r [<- Hr]].
  destruct (Hshape r Hr) as [E|E]; [contradiction|].
  destruct (high_reason_pattern t default_percentile (snd r) E) as [pre [post Ep]].
  rewrite Ep in Ec. injection Ec as <-.
  apply length_filter_none. intros x Hx. apply in_map_iff in Hx. destruct Hx as [r' [<- Hr']].
  apply (high_items_miss t). exact (Hshape r' Hr').
Qed.

Lemma report_breakdown_outlier_counts_witness :
  exists cleaned flagged,
    (run_quality_checks sample_df = Ok (cleaned, flagged) /\ rows flagged <> []) /\
    exists ps,
      flag_breakdown flagged = Done ("" :: "  FLAG BREAKDOWN:" :: map breakdown_line ps) /\
      map fst ps = unique (map snd (rows flagged)) /\
      forall u n, In (u, n) ps -> u <> "negative_cost" -> n = 0%nat.
Proof.
  destruct (run_quality_checks sample_df) as [[c f]|e] eqn:E.
  - assert (Hne : rows f <> []).
    { pose proof E as E'. vm_compute in E'. injection E' as _ <-. discriminate. }
    exists c, f. split; [split; [reflexivity | exact Hne]|].
    exact (report_breakdown_outlier_counts sample_df c f E Hne).
  - vm_compute in E. discriminate E.
Defined.

(** X2: the FLAG BREAKDOWN line of ["negative_cost"] reports the number
    of flagged rows with a negative total cost, those flagged by the cost
    check alone or by both checks. *)
Theorem report_breakdown_negative_count df cleaned flagged :
  run_quality_checks df = Ok (cleaned, flagged) -> rows flagged <> [] ->
  exists ps,
    flag_breakdown flagged = Done ("" :: "  FLAG BREAKDOWN:" :: map breakdown_line ps) /\
    forall n, In ("negative_cost", n) ps ->
      n = length (filter (fun r => Qltb (total_cost (fst r)) 0) (rows flagged)).
Proof.
  intros Hrun Hne.
  destruct (flag_breakdown_run _ _ _ Hrun Hne) as [t [ps [Eb [_ [Hshape [Hiff Hp]]]]]].
  exists ps. split; [exact Eb|].
  intros n Hin. destruct (Hp _ _ Hin) as [its [Ec ->]].
  rewrite negative_pattern in Ec.
  assert (Ei : its = app [Lit "n"] (Lit "e" :: Lit "g" :: map Lit (list_ascii_of_string "ative_cost")))
    by congruence.
  rewrite Ei, length_filter_map. f_equal. apply filter_ext_in. intros r Hr.
  rewrite (negative_items_hit t (snd r) (Hshape r Hr)).
  specialize (Hiff r Hr).
  destruct (String.eqb (snd r) (high_reason t default_percentile)) eqn:E.
  - apply String.eqb_eq in E. rewrite (proj1 Hiff E). reflexivity.
  - destruct (Qltb (total_cost (fst r)) 0); [reflexivity|].
    apply String.eqb_neq in E. exfalso. exact (E (proj2 Hiff eq_refl)).
Qed.

Lemma report_breakdown_negative_count_witness :
  exists cleaned flagged,
    (run_quality_checks sample_df = Ok (cleaned, flagged) /\ rows flagged <> []) /\
    exists ps,
      flag_breakdown flagged = Done ("" :: "  FLAG BREAKDOWN:" :: map breakdown_line ps) /\
      forall n, In ("negative_cost", n) ps ->
        n = length (filter (fun r => Qltb (total_cost (fst r)) 0) (rows flagged)).
Proof.
  destruct (run_quality_checks sample_df) as [[c f]|e] eqn:E.
  - assert (Hne : rows f <> []).
    { pose proof E as E'. vm_compute in E'. injection E' as _ <-. discriminate. }
    exists c, f. split; [split; [reflexivity | exact Hne]|].
    exact (report_breakdown_negative_count sample_df c f E Hne).
  - vm_compute in E. discriminate E.
Defined.

(** ** The cleaned table *)

Lemma run_quality_checks_steps df cleaned flagged :
  run_quality_checks df = Ok (cleaned, flagged) ->
  exists neg high,
    flag_negative_costs df = Ok neg /\
    flag_high_encounter_counts df default_percentile = Ok high /\
    group_flags (concat_frames neg high) = Ok flagged /\
    clean_rows df flagged = Ok cleaned.
Proof.
  intro H. unfold run_quality_checks in H.
  destruct (flag_negative_costs df) as [neg|e] eqn:E1; [|discriminate H]. simpl in H.
  destruct (flag_high_encounter_counts df default_percentile) as [high|e] eqn:E2;
    [|discriminate H]. simpl in H.
  destruct (group_flags (concat_frames neg high)) as [fl|e] eqn:E3; [|discriminate H].
  simpl in H. destruct (clean_rows df fl) as [cl|e] eqn:E4; [|discriminate H]. simpl in H.
  injection H as <- <-. exists neg, high. repeat split; assumption.
Qed.

Lemma clean_rows_columns df f c : clean_rows df f = Ok c -> columns c = columns df.
Proof.
  unfold clean_rows. destruct (is_empty f); [intro E; injection E as <-; reflexivity|].
  destruct (require_cols key_cols f) as [[]|e]; cbn [bind]; [|discriminate].
  destruct (require_cols key_cols df) as [[]|e]; cbn [bind]; [|discriminate].
  intro E. injection E as <-. reflexivity.
Qed.

Lemma keys_dedup_iff F k : In k (map row_key (dedup_by_key [] F)) <-> In k (map row_key F).
Proof.
  split; [apply dedup_by_key_keys_sub | intro H; apply dedup_by_key_keys; [exact H | intros []]].
Qed.

(** X3: the cleaned table has the columns of the input, and its rows are
    input rows that neither check flags: a cost that is not negative and
    an encounter count not above the threshold. *)
Theorem run_quality_checks_cleaned_pass df cleaned flagged :
  run_quality_checks df = Ok (cleaned, flagged) ->
  columns cleaned = columns df /\
  exists t, quantile (encounter_column df) default_percentile = Ok t /\
    forall r, In r (rows cleaned) ->
      In r (rows df) /\ Qltb (total_cost (fst r)) 0 = false /\
      gt_threshold (total_encounters (fst r)) t = false.
Proof.
  intro Hrun.
  destruct (run_quality_checks_steps _ _ _ Hrun) as [neg' [high' [_ [_ [_ Ec]]]]].
  split; [exact (clean_rows_columns _ _ _ Ec)|].
  destruct (run_quality_checks_inv _ _ _ Hrun) as [neg [high [En [Eh [_ Hc]]]]].
  apply flag_negative_costs_inv in En.
  destruct (flag_high_encounter_counts_inv _ _ _ Eh) as [t [Eq Eh']].
  exists t. split; [exact Eq|].
  intros r Hr. rewrite Hc in Hr. apply filter_In in Hr. destruct Hr as [Hr Hk].
  apply negb_true_iff, key_mem_false in Hk. rewrite keys_dedup_iff in Hk.
  destruct r as [e s]. cbn [fst].
  split; [exact Hr|]. split.
  - destruct (Qltb (total_cost e) 0) eqn:E; [|reflexivity]. exfalso. apply Hk.
    change (row_key (e, s)) with (row_key (e, "negative_cost")).
    apply in_map. apply in_or_app. left. rewrite En. apply in_select_map.
    split; [exists s; exact Hr | split; [exact E | reflexivity]].
  - destruct (gt_threshold (total_encounters e) t) eqn:E; [|reflexivity]. exfalso. apply Hk.
    change (row_key (e, s)) with (row_key (e, high_reason t default_percentile)).
    apply in_map. apply in_or_app. right. rewrite Eh'. apply in_select_map.
    split; [exists s; exact Hr | split; [exact E | reflexivity]].
Qed.

Lemma run_quality_checks_cleaned_pass_witness :
  exists cleaned flagged,
    run_quality_checks sample_df = Ok (cleaned, flagged) /\
    columns cleaned = columns sample_df /\
    exists t, quantile (encounter_column sample_df) default_percentile = Ok t /\
      forall r, In r (rows cleaned) ->
        In r (rows sample_df) /\ Qltb (total_cost (fst r)) 0 = false /\
        gt_threshold (total_encounters (fst r)) t = false.
Proof.
  destruct (run_quality_checks sample_df) as [[c f]|e] eqn:E.
  - exists c, f. split; [reflexivity|]. exact (run_quality_checks_cleaned_pass sample_df c f E).
  - vm_compute in E. discriminate E.
Defined.

(** X4: the cleaned and the flagged table together have at most as many
    rows as the input: every flagged row stands for a distinct key of at
    least one input row, and that row is not in the cleaned table. *)
Theorem run_quality_checks_size_bound df cleaned flagged :
  run_quality_checks df = Ok (cleaned, flagged) ->
  (length (rows cleaned) + length (rows flagged) <= length (rows df))%nat.
Proof.
  intro Hrun.
  destruct (run_quality_checks_inv _ _ _ Hrun) as [neg [high [En [Eh [Hf Hc]]]]].
  set (D := dedup_by_key [] (app (rows neg) (rows high))) in *.
  set (g := fun r => key_mem (row_key r) (map row_key D)).
  rewrite Hc, Hf, length_map.
  change (filter (fun r => negb (key_mem (row_key r) (map row_key D))) (rows df))
    with (filter (fun x => negb (g x)) (rows df)).
  rewrite <- (filter_length g (rows df)).
  assert (Hle : (length (map row_key D) <= length (map row_key (filter g (rows df))))%nat).
  { apply NoDup_incl_length; [apply dedup_by_key_nodup|].
    intros k Hk. assert (Hk' := Hk). apply dedup_by_key_keys_sub in Hk'.
    apply in_map_iff in Hk'. destruct Hk' as [r [<- Hr]].
    apply (check_rows_from_input _ _ _ En Eh) in Hr.
    apply in_map_iff in Hr. destruct Hr as [x [Ex Hx]]. rewrite <- Ex.
    apply in_map. apply filter_In. split; [exact Hx|].
    unfold g. apply key_mem_spec. rewrite Ex. exact Hk. }
  rewrite !length_map in Hle. rewrite Nat.add_comm. apply (proj1 (Nat.add_le_mono_r _ _ _)). exact Hle.
Qed.

Lemma run_quality_checks_size_bound_witness :
  exists cleaned flagged,
    run_quality_checks sample_df = Ok (cleaned, flagged) /\
    (length (rows cleaned) + length (rows flagged) <= length (rows sample_df))%nat.
Proof.
  destruct (run_quality_checks sample_df) as [[c f]|e] eqn:E.
  - exists c, f. split; [reflexivity|]. exact (run_quality_checks_size_bound sample_df c f E).
  - vm_compute in E. discriminate E.
Defined.

(** ** How many rows the outlier check flags *)

Lemma sorted_count_above v k :
  StronglySorted Z.le v -> (k < length v)%nat ->
  (length (filter (fun x => Z.ltb (nth k v 0%Z) x) v) <= length v - S k)%nat.
Proof.
  intro Hs. revert k.
  induction Hs as [|a v Hs IH Hf]; intros k Hk; cbn [length] in *; [lia|].
  rewrite Forall_forall in Hf.
  destruct k as [|k]; cbn [nth filter].
  - rewrite Z.ltb_irrefl. pose proof (filter_length_le (fun x => Z.ltb a x) v). lia.
  - assert (Ha : (a <= nth k v 0%Z)%Z) by (apply Hf; apply nth_In; lia).
    destruct (Z.ltb (nth k v 0%Z) a) eqn:E; [apply Z.ltb_lt in E; lia|].
    apply IH. lia.
Qed.

Lemma length_filter_perm {A} (f : A -> bool) l l' :
  Permutation l l' -> length (filter f l) = length (filter f l').
Proof.
  induction 1 as [|x l l' _ IH|x y l|l l' l'' _ IH1 _ IH2]; cbn [filter].
  - reflexivity.
  - destruct (f x); cbn [length]; rewrite IH; reflexivity.
  - destruct (f x), (f y); reflexivity.
  - rewrite IH1. exact IH2.
Qed.

Lemma length_filter_mono {A} (f g : A -> bool) l :
  (forall x, In x l -> f x = true -> g x = true) ->
  (length (filter f l) <= length (filter g l))%nat.
Proof.
  induction l as [|a l IH]; intro H; cbn [filter]; [reflexivity|].
  assert (IH' : (length (filter f l) <= length (filter g l))%nat)
    by (apply IH; intros x Hx; apply H; right; exact Hx).
  destruct (f a) eqn:Ef.
  - rewrite (H a (or_introl eq_refl) Ef). cbn [length]. lia.
  - destruct (g a); cbn [length]; lia.
Qed.

Lemma quantile_ok_range xs p t : quantile xs p = Ok t -> 0 <= p /\ p <= 1.
Proof.
  intro E. destruct (Qlt_le_dec p 0) as [H|H0].
  - rewrite quantile_invalid in E by (left; exact H). discriminate E.
  - destruct (Qlt_le_dec 1 p) as [H|H1]; [|split; assumption].
    rewrite quantile_invalid in E by (right; exact H). discriminate E.
Qed.

(** X5: with [h = (n - 1) p] the virtual index, the outlier check
    returns at most [n - 1 - floor(h)] of the [n] rows: the order
    statistics at positions [0 .. floor(h)] of the sorted column are at
    most the threshold, so they are never above it. *)
Theorem flag_high_encounter_counts_count_bound df p high :
  flag_high_encounter_counts df p = Ok high -> rows df <> [] ->
  (length (rows high) +
   S (Z.to_nat (Qfloor (virtual_index (Z.of_nat (length (rows df))) p)))
   <= length (rows df))%nat.
Proof.
  intros E Hne.
  destruct (flag_high_encounter_counts_inv _ _ _ E) as [t [Eq Eh]].
  destruct (quantile_ok_range _ _ _ Eq) as [H0 H1].
  destruct (column_sorted_facts df Hne) as [Hs [Hl [Hlen Hin]]].
  destruct (threshold_range df p Hne H0 H1) as [Hv0 Hv1].
  assert (Ht : t = Some (lerp_at (sort_Z (encounter_column df))
                          (virtual_index (Z.of_nat (length (sort_Z (encounter_column df)))) p))).
  { rewrite (quantile_ok _ _ H0 H1) in Eq.
    destruct (encounter_column df) eqn:Ec; [apply encounter_column_nil in Ec; contradiction|].
    injection Eq as <-. reflexivity. }
  set (v := sort_Z (encounter_column df)) in *.
  set (h := virtual_index (Z.of_nat (length v)) p) in *.
  destruct (lerp_bounds v Hs Hl h Hv0 Hv1) as [Hlo _].
  destruct (floor_range v h Hv0 Hv1) as [Hf0 Hf1].
  set (k := Z.to_nat (Qfloor h)).
  assert (Hk : (k < length v)%nat) by (unfold k; lia).
  rewrite Eh. cbn [rows set_flag_reason select]. rewrite length_map.
  assert (E1 : length (filter (fun r => gt_threshold (total_encounters (fst r)) t) (rows df)) =
               length (filter (fun x => gt_threshold x t) v)).
  { unfold v. rewrite <- (length_filter_perm _ _ _ (sort_Z_perm _)).
    unfold encounter_column. rewrite length_filter_map. reflexivity. }
  assert (E2 : (length (filter (fun x => gt_threshold x t) v) <=
                length (filter (fun x => Z.ltb (nth k v 0%Z) x) v))%nat).
  { apply length_filter_mono. intros x _ Hx. rewrite Ht in Hx. cbn [gt_threshold] in Hx.
    apply Qltb_spec in Hx. apply Z.ltb_lt. rewrite Zlt_Qlt.
    unfold k. fold h. exact (Qle_lt_trans _ _ _ Hlo Hx). }
  assert (E3 := sorted_count_above v k
                  (Sorted_StronglySorted Z.le_trans Hs) Hk).
  rewrite <- Hlen. fold h. fold k. lia.
Qed.

Lemma flag_high_encounter_counts_count_bound_witness :
  exists high,
    (flag_high_encounter_counts sample_df default_percentile = Ok high /\ rows sample_df <> []) /\
    (length (rows high) +
     S (Z.to_nat (Qfloor (virtual_index (Z.of_nat (length (rows sample_df))) default_percentile)))
     <= length (rows sample_df))%nat.
Proof.
  exists (match flag_high_encounter_counts sample_df default_percentile with
          | Ok f => f | Err _ => empty_df end).
  assert (E : flag_high_encounter_counts sample_df default_percentile =
              Ok (match flag_high_encounter_counts sample_df default_percentile with
                  | Ok f => f | Err _ => empty_df end))
    by (vm_compute; reflexivity).
  assert (Hne : rows sample_df <> []) by discriminate.
  split; [split; [exact E | exact Hne]|].
  exact (flag_high_encounter_counts_count_bound _ _ _ E Hne).
Defined.

(** X6: with the default percentile, [floor(0.99 (n - 1)) >= n - 2] for
    [n <= 101]: a table of at most 101 rows has at most one outlier. *)
Theorem flag_high_default_at_most_one df high :
  flag_high_encounter_counts df default_percentile = Ok high ->
  (length (rows df) <= 101)%nat -> (length (rows high) <= 1)%nat.
Proof.
  intros E Hn.
  destruct (rows df) as [|r rs] eqn:Hr.
  - destruct (flag_high_encounter_counts_inv _ _ _ E) as [t [_ Eh]].
    rewrite Eh. cbn [rows set_flag_reason select]. rewrite Hr. cbn. lia.
  - assert (Hne : rows df <> []) by (rewrite Hr; discriminate).
    assert (B := flag_high_encounter_counts_count_bound df _ high E Hne).
    rewrite Hr in B.
    set (N := Z.of_nat (length (r :: rs))) in B.
    assert (HN : (1 <= N <= 101)%Z) by (unfold N; cbn [length] in *; lia).
    assert (Hq : inject_Z (N - 2) <= virtual_index N default_percentile).
    { unfold virtual_index, default_percentile, Qle, Qmult, inject_Z. cbn [Qnum Qden].
      rewrite Pos.mul_1_l. lia. }
    apply Qfloor_resp_le in Hq. rewrite Qfloor_Z in Hq.
    unfold N in *. cbn [length] in *. lia.
Qed.

Lemma flag_high_default_at_most_one_witness :
  exists high,
    (flag_high_encounter_counts sample_df default_percentile = Ok high /\
     (length (rows sample_df) <= 101)%nat) /\
    (length (rows high) <= 1)%nat.
Proof.
  exists (match flag_high_encounter_counts sample_df default_percentile with
          | Ok f => f | Err _ => empty_df end).
  assert (E : flag_high_encounter_counts sample_df default_percentile =
              Ok (match flag_high_encounter_counts sample_df default_percentile with
                  | Ok f => f | Err _ => empty_df end))
    by (vm_compute; reflexivity).
  assert (Hn : (length (rows sample_df) <= 101)%nat) by (vm_compute; lia).
  split; [split; [exact E | exact Hn]|].
  exact (flag_high_default_at_most_one _ _ E Hn).
Defined.

(** X7: the threshold of the outlier check on a non-empty column lies
    between two values of the column, the order statistics around the
    virtual index. *)
Theorem flag_high_encounter_counts_threshold_between df p high :
  flag_high_encounter_counts df p = Ok high -> rows df <> [] ->
  exists q x y, quantile (encounter_column df) p = Ok (Some q) /\
    In x (encounter_column df) /\ In y (encounter_column df) /\
    inject_Z x <= q /\ q <= inject_Z y.
Proof.
  intros E Hne.
  destruct (flag_high_encounter_counts_inv _ _ _ E) as [t [Eq _]].
  destruct (quantile_ok_range _ _ _ Eq) as [H0 H1].
  destruct (column_sorted_facts df Hne) as [Hs [Hl [_ Hin]]].
  destruct (threshold_range df p Hne H0 H1) as [Hv0 Hv1].
  set (v := sort_Z (encounter_column df)) in *.
  set (h := virtual_index (Z.of_nat (length v)) p) in *.
  destruct (lerp_bounds v Hs Hl h Hv0 Hv1) as [Hlo Hhi].
  destruct (floor_range v h Hv0 Hv1) as [Hf0 Hf1].
  exists (lerp_at v h), (nth (Z.to_nat (Qfloor h)) v 0%Z),
         (nth (Z.to_nat (Z.min (Qfloor h + 1) (Z.of_nat (length v) - 1))) v 0%Z).
  split.
  { rewrite (quantile_ok _ _ H0 H1) in Eq. rewrite (quantile_ok _ _ H0 H1).
    destruct (encounter_column df) eqn:Ec; [apply encounter_column_nil in Ec; contradiction|].
    reflexivity. }
  split; [apply Hin, nth_In; lia|]. split; [apply Hin, nth_In; lia|].
  split; assumption.
Qed.
Lemma flag_high_encounter_counts_threshold_between_witness :
  exists high,
    (flag_high_encounter_counts sample_df (1 # 2) = Ok high /\ rows sample_df <> []) /\
    exists q x y, quantile (encounter_column sample_df) (1 # 2) = Ok (Some q) /\
      In x (encounter_column sample_df) /\ In y (encounter_column sample_df) /\
      inject_Z x <= q /\ q <= inject_Z y.
Proof.
  destruct (flag_high_encounter_counts sample_df (1 # 2)) as [high|e] eqn:E.
  - assert (Hne : rows sample_df <> []) by discriminate.
    exists high. split; [split; [reflexivity | exact Hne]|].
    exact (flag_high_encounter_counts_threshold_between sample_df _ high E Hne).
  - vm_compute in E. discriminate E.
Defined.
